(** * Apex Legends Prometheus exporter: a shallow embedding of [server/main.py]

    The exporter polls two endpoints of a game-statistics API, copies the
    fields of the two JSON documents into the attributes of two collector
    objects, and then writes those attributes into Prometheus instruments.

    The embedding follows the Python source statement by statement:
    - a Python value is a [pyval]; a [dict] is an association list in
      insertion order, the order in which [.items()] yields it;
    - the attributes of an object are a finite map from attribute names to
      values ([self.__dict__]);
    - a method is a computation in a state-and-exception monad [M]: an
      exception leaves the assignments made before it in place;
    - the upstream API is a function from the requests issued so far and the
      current request to the outcome of [requests.get]. *)

From Stdlib Require Import ZArith String Ascii List Bool Lia.
From Stdlib Require Import SpecFloat.
From stdpp Require Import base option list strings gmap pretty.

Local Open Scope Z_scope.
Local Open Scope string_scope.
Local Set Warnings "-register-all".

(** ** Python values *)

(** The values [Response.json()] can return, which are also the values the
    collectors store: [None], [bool], [int], [float] (binary64, as a
    [spec_float]), [str], [list] and [dict] with [str] keys. *)
Inductive pyval : Type :=
  | PNone
  | PBool (b : bool)
  | PInt (z : Z)
  | PFloat (f : spec_float)
  | PStr (s : string)
  | PList (l : list pyval)
  | PDict (d : list (string * pyval)).

(** The exception classes the program can meet.  The three request failures
    are subclasses of [requests.exceptions.RequestException]. *)
Inductive request_failure : Type :=
  | ConnectionError
  | Timeout
  | TooManyRedirects.

Inductive exn : Type :=
  | KeyError
  | TypeError
  | IndexError
  | ValueError
  | OverflowError
  | AttributeError
  | JSONDecodeError
  | RecursionError
  | RequestException (why : request_failure).


Inductive result (A : Type) : Type :=
  | Ok (a : A)
  | Raise (e : exn).
Arguments Ok {A} a.
Arguments Raise {A} e.

Definition is_ok {A} (r : result A) : bool :=
  match r with Ok _ => true | Raise _ => false end.

#[global] Instance result_ret : MRet result := @Ok.
#[global] Instance result_bind : MBind result := fun A B f r =>
  match r with Ok a => f a | Raise e => Raise e end.

(** ** Dictionaries in insertion order *)

Module Dict.

Fixpoint get {V} (k : string) (d : list (string * V)) : option V :=
  match d with
  | [] => None
  | (k', v) :: d' => if String.eqb k k' then Some v else get k d'
  end.

(** [d[k] = v]: an existing key keeps its position, a new key goes last. *)
Fixpoint set {V} (k : string) (v : V) (d : list (string * V))
  : list (string * V) :=
  match d with
  | [] => [(k, v)]
  | (k', v') :: d' =>
      if String.eqb k k' then (k, v) :: d' else (k', v') :: set k v d'
  end.

Definition keys {V} (d : list (string * V)) : list string := map fst d.

Definition mem {V} (k : string) (d : list (string * V)) : bool :=
  match get k d with Some _ => true | None => false end.

End Dict.

(** ** Built-in operations *)

Definition float_is_zero (f : spec_float) : bool :=
  match f with S754_zero _ => true | _ => false end.

(** [bool(v)] *)
Definition truthy (v : pyval) : bool :=
  match v with
  | PNone => false
  | PBool b => b
  | PInt z => negb (Z.eqb z 0)
  | PFloat f => negb (float_is_zero f)
  | PStr s => negb (String.eqb s "")
  | PList l => match l with [] => false | _ => true end
  | PDict d => match d with [] => false | _ => true end
  end.

(** [a or b] *)
Definition py_or (a b : pyval) : pyval := if truthy a then a else b.

(** [v == s] for a [str] literal [s] *)
Definition eq_str (v : pyval) (s : string) : bool :=
  match v with PStr s' => String.eqb s' s | _ => false end.

(** [v != 0]: [False], [0], [0.0] and [-0.0] are equal to [0], nothing else
    is. *)
Definition ne_zero (v : pyval) : bool :=
  match v with
  | PBool b => b
  | PInt z => negb (Z.eqb z 0)
  | PFloat f => negb (float_is_zero f)
  | _ => true
  end.

(** [v[k]] for a [str] key [k] *)
Definition getitem (v : pyval) (k : string) : result pyval :=
  match v with
  | PDict d => match Dict.get k d with Some x => Ok x | None => Raise KeyError end
  | _ => Raise TypeError
  end.

Definition first_char (s : string) : option string :=
  match s with
  | EmptyString => None
  | String c _ => Some (String c EmptyString)
  end.

(** [v[0]]: the keys of a [dict] are strings, so [0] is never one. *)
Definition getitem0 (v : pyval) : result pyval :=
  match v with
  | PList l => match l with x :: _ => Ok x | [] => Raise IndexError end
  | PStr s => match first_char s with Some c => Ok (PStr c) | None => Raise IndexError end
  | PDict _ => Raise KeyError
  | _ => Raise TypeError
  end.

Definition is_substring (s t : string) : bool :=
  match String.index 0 s t with Some _ => true | None => false end.

(** [s in v] for a [str] literal [s] *)
Definition contains (s : string) (v : pyval) : result bool :=
  match v with
  | PDict d => Ok (Dict.mem s d)
  | PList l => Ok (existsb (fun x => eq_str x s) l)
  | PStr t => Ok (is_substring s t)
  | _ => Raise TypeError
  end.

(** The items [for item in v] goes through: the elements of a list, the keys
    of a dict, the characters of a string. *)
Definition iterate (v : pyval) : result (list pyval) :=
  match v with
  | PList l => Ok l
  | PDict d => Ok (map PStr (Dict.keys d))
  | PStr s => Ok (map (fun c => PStr (String c EmptyString)) (list_ascii_of_string s))
  | _ => Raise TypeError
  end.

(** [v.items()] *)
Definition items (v : pyval) : result (list (string * pyval)) :=
  match v with
  | PDict d => Ok d
  | _ => Raise AttributeError
  end.

Definition binary64_of_Z (z : Z) : spec_float := binary_normalize 53 1024 z 0 false.

(** [float(z)] for an [int]: too large an integer raises [OverflowError]. *)
Definition float_of_int (z : Z) : result spec_float :=
  match binary64_of_Z z with
  | S754_infinity _ => Raise OverflowError
  | f => Ok f
  end.

(** ** The world outside the program *)

(** A call [requests.get(url, headers=..., params=..., timeout=...)]. *)
Record request : Type := mkRequest {
  url : string;
  headers : pyval;
  params : list (string * pyval);
  timeout : Z
}.

(** A response, as far as the program looks at it: [json_body] is what
    [.json()] does with the body.  It returns the decoded value, or it
    raises: [JSONDecodeError] for a body that is not JSON, and what the
    decoder raises on a body that is JSON and that it cannot decode, as
    [ValueError] for an integer with more digits than the interpreter
    converts and [RecursionError] for a nesting deeper than it follows. *)
Record response : Type := mkResponse {
  status_code : Z;
  json_body : result pyval
}.

(** What [requests.get] does: it raises or it returns a response. *)
Inductive http_outcome : Type :=
  | Failed (why : request_failure)
  | Responded (r : response).

(** The interpreter's conversions the embedding does not spell out, the
    one point on which releases of [prometheus_client] differ, and the
    upstream API, which answers a request knowing the requests before it. *)
Record environment : Type := mkEnvironment {
  (** [float(s)] for a [str]; [None] is [ValueError] *)
  float_of_str : string -> option spec_float;
  (** [int(s)] for a [str]; [None] is [ValueError] *)
  int_of_str : string -> option Z;
  (** [str(v)] for a [float], a [list] or a [dict] *)
  str_of_other : pyval -> string;
  (** whether [Info.info] raises [ValueError] on a [None] value *)
  info_rejects_none : bool;
  upstream : list request -> request -> http_outcome
}.

(** What an instrument of [prometheus_client] holds: an [Info] the dict last
    given to [.info], a [Gauge] the float last given to [.set]. *)
Inductive sample : Type :=
  | Info (value : list (string * pyval))
  | Gauge (value : spec_float).

(** The objects of the program: the requests issued so far, the attributes
    of the two collectors, and the instruments of [ApexCollector].  An
    instrument is found by the attribute that holds it and its label values:
    none for an instrument without labels, the legend name for a child of
    [legend_kills]. *)
Record state : Type := mkState {
  log : list request;
  player_stats_collector : gmap string pyval;
  map_stats_collector : gmap string pyval;
  instruments : gmap (string * list string) sample
}.

Inductive collector : Type := Player | Map.

Definition attrs (o : collector) (st : state) : gmap string pyval :=
  match o with
  | Player => player_stats_collector st
  | Map => map_stats_collector st
  end.

Definition with_attrs (o : collector) (a : gmap string pyval) (st : state) : state :=
  match o with
  | Player => mkState (log st) a (map_stats_collector st) (instruments st)
  | Map => mkState (log st) (player_stats_collector st) a (instruments st)
  end.

Definition with_log (l : list request) (st : state) : state :=
  mkState l (player_stats_collector st) (map_stats_collector st) (instruments st).

Definition with_instruments (i : gmap (string * list string) sample) (st : state)
  : state :=
  mkState (log st) (player_stats_collector st) (map_stats_collector st) i.

(** ** Statements: state and exceptions *)

Definition M (A : Type) : Type := state -> result A * state.

Definition ret {A} (a : A) : M A := fun st => (Ok a, st).

Definition bind {A B} (m : M A) (f : A -> M B) : M B :=
  fun st =>
    match m st with
    | (Ok a, st') => f a st'
    | (Raise e, st') => (Raise e, st')
    end.

Definition lift {A} (r : result A) : M A := fun st => (r, st).

Definition raise {A} (e : exn) : M A := lift (Raise e).

#[global] Instance M_ret : MRet M := @ret.
#[global] Instance M_bind : MBind M := fun A B f m => bind m f.

(** [self.name] *)
Definition getattr (o : collector) (name : string) : M pyval :=
  fun st =>
    match attrs o st !! name with
    | Some v => (Ok v, st)
    | None => (Raise AttributeError, st)
    end.

(** [self.name = v] *)
Definition setattr (o : collector) (name : string) (v : pyval) : M unit :=
  fun st => (Ok tt, with_attrs o (<[name := v]> (attrs o st)) st).

(** [for x in l: body(x)] *)
Fixpoint for_each {A} (l : list A) (body : A -> M unit) : M unit :=
  match l with
  | [] => ret tt
  | x :: l' => body x;; for_each l' body
  end.

(** [self.name = e], where evaluating [e] may raise *)
Definition assign (o : collector) (name : string) (e : result pyval) : M unit :=
  v ← lift e; setattr o name v.

(** [d[k] = v] *)
Definition setitem (d : pyval) (k : string) (v : pyval) : result pyval :=
  match d with
  | PDict l => Ok (PDict (Dict.set k v l))
  | _ => Raise TypeError
  end.

(** [int(f)] for a [float]: truncation towards zero *)
Definition int_of_float (f : spec_float) : result Z :=
  match f with
  | S754_zero _ => Ok 0
  | S754_infinity _ => Raise OverflowError
  | S754_nan => Raise ValueError
  | S754_finite s m e =>
      let a := if Z.leb 0 e then Z.shiftl (Zpos m) e else Z.shiftr (Zpos m) (- e) in
      Ok (if s then - a else a)
  end.

Section Conversions.

Variable E : environment.

(** [float(v)] *)
Definition py_float (v : pyval) : result spec_float :=
  match v with
  | PBool b => float_of_int (if b then 1 else 0)
  | PInt z => float_of_int z
  | PFloat f => Ok f
  | PStr s =>
      match float_of_str E s with Some f => Ok f | None => Raise ValueError end
  | PNone | PList _ | PDict _ => Raise TypeError
  end.

(** [int(v)] *)
Definition py_int (v : pyval) : result Z :=
  match v with
  | PBool b => Ok (if b then 1 else 0)
  | PInt z => Ok z
  | PFloat f => int_of_float f
  | PStr s =>
      match int_of_str E s with Some z => Ok z | None => Raise ValueError end
  | PNone | PList _ | PDict _ => Raise TypeError
  end.

(** [str(v)] *)
Definition py_str (v : pyval) : string :=
  match v with
  | PNone => "None"
  | PBool true => "True"
  | PBool false => "False"
  | PInt z => pretty z
  | PStr s => s
  | PFloat _ | PList _ | PDict _ => str_of_other E v
  end.

(** [requests.get(url, headers=..., params=..., timeout=...)]: the request
    goes out, whatever comes back. *)
Definition requests_get (r : request) : M response :=
  fun st =>
    let st' := with_log (log st ++ [r]) st in
    match upstream E (log st) r with
    | Failed why => (Raise (RequestException why), st')
    | Responded resp => (Ok resp, st')
    end.

(** [response.json()]: the status code is not looked at, and what the
    decoder raises is not caught. *)
Definition json (resp : response) : M pyval :=
  lift (json_body resp).

(** *** Instruments *)

Definition is_none (v : pyval) : bool :=
  match v with PNone => true | _ => false end.

Definition store (name : string) (label_values : list string) (x : sample)
  : M unit :=
  fun st =>
    (Ok tt, with_instruments (<[(name, label_values) := x]> (instruments st)) st).

(** [self.name.info(val)] *)
Definition info (name : string) (val : list (string * pyval)) : M unit :=
  if info_rejects_none E && existsb (fun kv => is_none (snd kv)) val
  then raise ValueError
  else store name [] (Info val).

(** [self.name.set(v)]: the gauge stores [float(v)]. *)
Definition gauge_set (name : string) (v : pyval) : M unit :=
  f ← lift (py_float v);
  store name [] (Gauge f).

(** [self.name.labels(label)]: the child of that label, made at [0.0] when
    there is none yet. *)
Definition labels (name label : string) : M unit :=
  fun st =>
    match instruments st !! (name, [label]) with
    | Some _ => (Ok tt, st)
    | None => store name [label] (Gauge (S754_zero false)) st
    end.

(** [child.set(v)] on the child of [label] *)
Definition child_set (name label : string) (v : pyval) : M unit :=
  f ← lift (py_float v);
  store name [label] (Gauge f).

End Conversions.

(** ** [class MapDataCollector] *)

Module MapDataCollector.

Definition URL : string := "https://api.mozambiquehe.re/maprotation".

(** [__init__(self, api_key, uid=None, player_name=None)] *)
Definition init (api_key uid player_name : pyval) : gmap string pyval :=
  list_to_map
    [ ("uid", uid);
      ("player_name", player_name);
      ("headers", PDict [("Authorization", api_key)]);
      ("current_map_name", PStr "");
      ("current_map_duration", PInt 0);
      ("current_map_remaining", PInt 0);
      ("next_map_name", PStr "");
      ("next_map_start", PInt 0);
      ("next_map_duration", PInt 0) ].

Section Methods.

Variable E : environment.

(** The [requests.get] call of [populate_data]. *)
Definition get_map_rotation : M pyval :=
  headers ← getattr Map "headers";
  resp ← requests_get E (mkRequest URL headers [] 10);
  json resp.

(** The statements of [populate_data] that follow the request. *)
Definition extract (map_rotation : pyval) : M unit :=
  current_map_data ← lift (getitem map_rotation "current");
  next_map_data ← lift (getitem map_rotation "next");

  assign Map "current_map_name" (getitem current_map_data "map");;
  assign Map "next_map_name" (getitem next_map_data "map");;

  assign Map "current_map_duration" (getitem current_map_data "DurationInMinutes");;
  assign Map "next_map_duration" (getitem next_map_data "DurationInMinutes");;

  assign Map "current_map_remaining" (getitem current_map_data "remainingMins");;
  assign Map "next_map_start" (getitem next_map_data "start").

Definition populate_data : M unit :=
  (* the argument of the second logging.debug *)
  h ← getattr Map "headers";
  _ ← lift (getitem h "Authorization");

  map_rotation ← get_map_rotation;
  extract map_rotation.

End Methods.

End MapDataCollector.

(** ** [class PlayerStatsCollector] *)

Module PlayerStatsCollector.

Definition URL : string := "https://api.mozambiquehe.re/bridge".

(** [__init__(self, api_key, uid=None, player_name=None, platform=None)] *)
Definition init (api_key uid player_name platform : pyval) : gmap string pyval :=
  list_to_map
    [ ("uid", uid);
      ("platform", platform);
      ("player_name", player_name);
      ("headers", PDict [("Authorization", api_key)]);
      ("player_identifier", PStr "");
      ("player_platform", PStr "");
      ("level", PInt 0);
      ("next_level_percentage", PInt 0);
      ("banned", PStr "");
      ("ban_duration", PInt 0);
      ("br_rank_name", PStr "");
      ("br_rank_score", PInt 0);
      ("br_rank_div", PInt 0);
      ("arena_rank_name", PStr "");
      ("arena_rank_score", PInt 0);
      ("arena_rank_div", PInt 0);
      ("battle_pass_level", PInt 0);
      ("battle_pass_history", PInt 0);
      ("lobby_state", PStr "");
      ("is_online", PBool false);
      ("is_in_game", PBool false);
      ("party_full", PBool false);
      ("selected_legend", PStr "");
      ("current_state", PStr "");
      ("current_legend_name", PStr "");
      ("current_legend_br_kills", PInt 0);
      ("all_legends_kills", PDict []);
      ("kills", PInt 0);
      ("kill_death_ratio", PStr "");
      ("mozambique_cluster_server", PStr "");
      ("processing_time", PInt 0) ].

(** [next((item["value"] for item in items if item["key"] == "kills"), 0)]:
    the generator is consumed up to its first element, so the items after
    the first match are not looked at. *)
Fixpoint first_kills (items : list pyval) : result pyval :=
  match items with
  | [] => Ok (PInt 0)
  | item :: rest =>
      key ← getitem item "key";
      if eq_str key "kills" then getitem item "value" else first_kills rest
  end.

Definition kill_value_of (legend_info : pyval) : result pyval :=
  data ← getitem legend_info "data";
  its ← iterate data;
  first_kills its.

(** The body of the loop over [player_legends_kills.items()]. *)
Definition legend_step (legend : string * pyval) : M unit :=
  let (legend_name, legend_info) := legend in
  if String.eqb legend_name "Global" then ret tt
  else
    has_data ← lift (contains "data" legend_info);
    if negb has_data then ret tt
    else
      kill_value ← lift (kill_value_of legend_info);
      if ne_zero kill_value then
        d ← getattr Player "all_legends_kills";
        assign Player "all_legends_kills" (setitem d legend_name kill_value)
      else ret tt.

Section Methods.

Variable E : environment.

(** The requests of the two [requests.get] calls of [populate_data]. *)
Definition by_name (headers player_name platform : pyval) : request :=
  mkRequest URL headers [("player_name", player_name); ("platform", platform)] 10.

Definition by_uid (headers uid platform : pyval) : request :=
  mkRequest URL headers [("uid", uid); ("platform", platform)] 10.

(** The [requests.get] calls of [populate_data], by the truth value of
    [self.player_name]. *)
Definition get_player_stats : M pyval :=
  player_name ← getattr Player "player_name";
  if truthy player_name then
    headers ← getattr Player "headers";
    player_name ← getattr Player "player_name";
    platform ← getattr Player "platform";
    resp ← requests_get E (by_name headers player_name platform);
    json resp
  else
    headers ← getattr Player "headers";
    uid ← getattr Player "uid";
    platform ← getattr Player "platform";
    resp ← requests_get E (by_uid headers uid platform);
    json resp.

(** The statements of [populate_data] that follow the request. *)
Definition extract (player_stats : pyval) : M unit :=
  player_info_data ← lift (getitem player_stats "global");
  player_realtime_data ← lift (getitem player_stats "realtime");
  player_current_legend_data ←
    lift (l ← getitem player_stats "legends"; getitem l "selected");
  player_legends_kills ←
    lift (l ← getitem player_stats "legends"; getitem l "all");
  player_mozambique_data ← lift (getitem player_stats "mozambiquehere_internal");
  player_total_data ← lift (getitem player_stats "total");
  api_data ← lift (getitem player_stats "processingTime");

  (* Data from global stats *)
  assign Player "player_identifier" (getitem player_info_data "name");;
  assign Player "player_platform" (getitem player_info_data "platform");;
  assign Player "level" (getitem player_info_data "level");;
  assign Player "next_level_percentage" (getitem player_info_data "toNextLevelPercent");;
  assign Player "banned"
    (b ← getitem player_info_data "bans"; getitem b "isActive");;
  assign Player "ban_duration"
    (b ← getitem player_info_data "bans"; getitem b "remainingSeconds");;

  (* Data from BR Ranking *)
  assign Player "br_rank_name"
    (r ← getitem player_info_data "rank"; getitem r "rankName");;
  assign Player "br_rank_score"
    (r ← getitem player_info_data "rank"; getitem r "rankScore");;
  assign Player "br_rank_div"
    (r ← getitem player_info_data "rank"; getitem r "rankDiv");;

  (* Data from Arena Rank *)
  assign Player "arena_rank_name"
    (r ← getitem player_info_data "arena"; getitem r "rankName");;
  assign Player "arena_rank_score"
    (r ← getitem player_info_data "arena"; getitem r "rankScore");;
  assign Player "arena_rank_div"
    (r ← getitem player_info_data "arena"; getitem r "rankDiv");;

  (* Data from BattlePass *)
  assign Player "battle_pass_level"
    (b ← getitem player_info_data "battlepass";
     x ← getitem b "level"; Ok (py_or x (PInt 0)));;
  assign Player "battle_pass_history"
    (b ← getitem player_info_data "battlepass";
     x ← getitem b "history"; Ok (py_or x (PInt 0)));;

  (* Data from Realtime *)
  assign Player "lobby_state" (getitem player_realtime_data "lobbyState");;
  assign Player "is_online"
    (x ← getitem player_realtime_data "isOnline"; Ok (PBool (truthy x)));;
  assign Player "is_in_game"
    (x ← getitem player_realtime_data "isInGame"; Ok (PBool (truthy x)));;
  assign Player "party_full"
    (x ← getitem player_realtime_data "partyFull"; Ok (PBool (truthy x)));;
  assign Player "selected_legend" (getitem player_realtime_data "selectedLegend");;
  assign Player "current_state" (getitem player_realtime_data "currentState");;

  (* Data from Current Legend *)
  assign Player "current_legend_name" (getitem player_current_legend_data "LegendName");;
  assign Player "current_legend_br_kills"
    (d ← getitem player_current_legend_data "data";
     x ← getitem0 d; getitem x "value");;

  (* Data from All Legends *)
  setattr Player "all_legends_kills" (PDict []);;
  legends ← lift (items player_legends_kills);
  for_each legends legend_step;;

  (* Data from Player Total *)
  assign Player "kills"
    (k ← getitem player_total_data "kills"; getitem k "value");;
  assign Player "kill_death_ratio"
    (k ← getitem player_total_data "kd";
     x ← getitem k "value"; f ← py_float E x; Ok (PFloat f));;

  (* Data from Mozambique *)
  assign Player "mozambique_cluster_server"
    (getitem player_mozambique_data "clusterSrv");;

  (* Data from API *)
  setattr Player "processing_time" api_data.

Definition populate_data : M unit :=
  (* the argument of the second logging.debug *)
  h ← getattr Player "headers";
  _ ← lift (getitem h "Authorization");

  player_stats ← get_player_stats;
  extract player_stats.

End Methods.

End PlayerStatsCollector.

(** ** [class ApexCollector] *)

Module ApexCollector.

Definition info_ (name : string) : string * list string * sample :=
  (name, [], Info []).

Definition gauge_ (name : string) : string * list string * sample :=
  (name, [], Gauge (S754_zero false)).

(** [__init__]: an [Info] starts with an empty dict and a [Gauge] at
    [0.0]; [legend_kills], the gauge with the label [legend_name], starts
    without children. *)
Definition init : gmap (string * list string) sample :=
  list_to_map
    [
      info_ "current_session_map";
      gauge_ "current_session_duration";
      gauge_ "current_session_remaining";
      info_ "next_session_map";
      gauge_ "next_session_start";
      gauge_ "next_session_duration";
      info_ "player_identifier";
      info_ "player_platform";
      gauge_ "level";
      gauge_ "next_level_percentage";
      info_ "banned";
      gauge_ "ban_duration";
      info_ "br_rank_name";
      gauge_ "br_rank_score";
      gauge_ "br_rank_div";
      info_ "arena_rank_name";
      gauge_ "arena_rank_score";
      gauge_ "arena_rank_div";
      gauge_ "battle_pass_level";
      gauge_ "battle_pass_history";
      info_ "lobby_state";
      gauge_ "is_online";
      gauge_ "is_in_game";
      info_ "party_full";
      info_ "selected_legend";
      info_ "active_legend";
      gauge_ "active_legend_kills";
      info_ "current_state";
      gauge_ "kills";
      gauge_ "kill_death_ratio";
      info_ "mozambique_cluster_server";
      gauge_ "processing_time" ].

Section Methods.

Variable E : environment.

(** [self.legend_kills.labels(legend_name).set(kills)] *)
Definition legend_kills_step (entry : string * pyval) : M unit :=
  let (legend_name, kills) := entry in
  labels "legend_kills" legend_name;;
  child_set E "legend_kills" legend_name kills.

(** The statements of [collect] after the two fetches. *)
Definition project : M unit :=
  current_map_name ← getattr Map "current_map_name";
  next_map_name ← getattr Map "next_map_name";

  (* Map Stats *)
  info E "current_session_map" [("map_name", current_map_name)];;
  x ← getattr Map "current_map_duration"; gauge_set E "current_session_duration" x;;
  x ← getattr Map "current_map_remaining"; gauge_set E "current_session_remaining" x;;
  info E "next_session_map" [("next_map_name", next_map_name)];;
  x ← getattr Map "next_map_duration"; gauge_set E "next_session_duration" x;;
  x ← getattr Map "next_map_start"; gauge_set E "next_session_start" x;;

  (* Player Stats *)
  x ← getattr Player "player_identifier"; info E "player_identifier" [("player_identifier", x)];;
  x ← getattr Player "player_platform"; info E "player_platform" [("platform", x)];;
  x ← getattr Player "level"; gauge_set E "level" x;;
  x ← getattr Player "next_level_percentage"; gauge_set E "next_level_percentage" x;;
  x ← getattr Player "banned"; info E "banned" [("banned", PStr (py_str E x))];;
  x ← getattr Player "ban_duration"; gauge_set E "ban_duration" x;;
  x ← getattr Player "br_rank_name"; info E "br_rank_name" [("br_rank_name", x)];;
  x ← getattr Player "br_rank_score"; gauge_set E "br_rank_score" x;;
  x ← getattr Player "br_rank_div"; gauge_set E "br_rank_div" x;;
  x ← getattr Player "arena_rank_name"; info E "arena_rank_name" [("arena_rank_name", x)];;
  x ← getattr Player "arena_rank_score"; gauge_set E "arena_rank_score" x;;
  x ← getattr Player "arena_rank_div"; gauge_set E "arena_rank_div" x;;
  x ← getattr Player "battle_pass_level"; gauge_set E "battle_pass_level" x;;
  x ← getattr Player "battle_pass_history"; gauge_set E "battle_pass_history" x;;
  x ← getattr Player "lobby_state"; info E "lobby_state" [("lobby_state", x)];;
  x ← getattr Player "is_online"; n ← lift (py_int E x); gauge_set E "is_online" (PInt n);;
  x ← getattr Player "is_in_game"; n ← lift (py_int E x); gauge_set E "is_in_game" (PInt n);;
  x ← getattr Player "party_full"; info E "party_full" [("party_full", PStr (py_str E x))];;
  x ← getattr Player "selected_legend"; info E "selected_legend" [("selected_legend", x)];;
  x ← getattr Player "current_legend_name"; info E "active_legend" [("active_legend", x)];;
  x ← getattr Player "current_legend_br_kills"; gauge_set E "active_legend_kills" x;;
  x ← getattr Player "current_state"; info E "current_state" [("current_state", x)];;
  d ← getattr Player "all_legends_kills";
  entries ← lift (items d);
  for_each entries legend_kills_step;;
  x ← getattr Player "kills"; gauge_set E "kills" x;;
  x ← getattr Player "kill_death_ratio";
  f ← lift (py_float E x); gauge_set E "kill_death_ratio" (PFloat f);;
  x ← getattr Player "mozambique_cluster_server";
  info E "mozambique_cluster_server" [("mozambique_cluster_server", x)];;
  x ← getattr Player "processing_time"; gauge_set E "processing_time" x.

Definition collect : M unit :=
  PlayerStatsCollector.populate_data E;;
  MapDataCollector.populate_data E;;
  project.

End Methods.

End ApexCollector.

(** ** The main program *)

Module Main.

(** [os.environ.get(k)] *)
Definition environ_get (environ : gmap string string) (k : string) : pyval :=
  match environ !! k with
  | Some s => PStr s
  | None => PNone
  end.

(** [logging._nameToLevel]: the names [logging] knows a level by. *)
Definition name_to_level : list (string * Z) :=
  [ ("CRITICAL", 50); ("FATAL", 50); ("ERROR", 40); ("WARN", 30);
    ("WARNING", 30); ("INFO", 20); ("DEBUG", 10); ("NOTSET", 0) ].

(** [logging.getLevelName(level)] for a [str]: the number of a name it
    knows, and the string ["Level " + level] for any other. *)
Definition getLevelName (level : string) : pyval :=
  match Dict.get level name_to_level with
  | Some n => PInt n
  | None => PStr ("Level " ++ level)
  end.

(** [logging.basicConfig(..., level=level, ...)] on a root logger without
    handlers: the level is given to [setLevel], which takes a number, or a
    name it knows, and raises [ValueError] for another string. *)
Definition basicConfig (level : pyval) : result unit :=
  match level with
  | PInt _ | PBool _ => Ok tt
  | PStr s =>
      match Dict.get s name_to_level with
      | Some _ => Ok tt
      | None => Raise ValueError
      end
  | _ => Raise TypeError
  end.

(** The checks of the required environment variables: the status of
    [sys.exit], if one of them ends the process. *)
Definition check_environment (environ : gmap string string) : option Z :=
  if negb (truthy (environ_get environ "USER_ID"))
     && negb (truthy (environ_get environ "PLAYER_NAME"))
  then Some 1
  else if truthy (environ_get environ "USER_ID")
          && truthy (environ_get environ "PLAYER_NAME")
  then Some 1
  else if negb (truthy (environ_get environ "API_KEY"))
  then Some 1
  else None.

Section Start.

(** [str.upper] *)
Variable upper : string -> string.

(** The first statement of the program:
    [logging.basicConfig(..., level=logging.getLevelName(
       os.environ.get("LOG_LEVEL", "INFO").upper()), ...)]. *)
Definition configure_logging (environ : gmap string string) : result unit :=
  basicConfig (getLevelName (upper (default "INFO" (environ !! "LOG_LEVEL")))).

(** The state in which the loop starts, or the status the process ends
    with before it: 1 when [basicConfig] raises, as nothing catches the
    exception, and the status of [sys.exit] when a check fails.  The two
    collectors are made from the same credentials, the platform goes to the
    player collector only. *)
Definition start (environ : gmap string string) : Z + state :=
  match configure_logging environ with
  | Raise _ => inl 1
  | Ok _ =>
      match check_environment environ with
      | Some status => inl status
      | None =>
          let uid := environ_get environ "USER_ID" in
          let player_name := environ_get environ "PLAYER_NAME" in
          let api_key := environ_get environ "API_KEY" in
          let platform :=
            PStr (upper (default "" (environ !! "PLATFORM"))) in
          inr (mkState []
                 (PlayerStatsCollector.init api_key uid player_name platform)
                 (MapDataCollector.init api_key uid player_name)
                 ApexCollector.init)
      end
  end.

End Start.

End Main.

(** ** The main program, after the collectors are made *)

Module MainLoop.

(** The objects the module-level name [collector] is bound to in turn: the
    [ApexCollector] made from the two collectors, and the three default
    collectors of [prometheus_client]. *)
Inductive object : Type :=
  | the_apex_collector
  | PROCESS_COLLECTOR
  | PLATFORM_COLLECTOR
  | GC_COLLECTOR.

#[global] Instance object_eq_dec : EqDecision object.
Proof. solve_decision. Defined.

(** The name [collector] and the collectors [REGISTRY] holds. *)
Record namespace : Type := mkNamespace {
  collector : object;
  registered : list object
}.

(** [REGISTRY.unregister(c)]: [KeyError] for a collector that is not
    registered. *)
Definition unregister (c : object) (reg : list object) : result (list object) :=
  if decide (c ∈ reg) then Ok (filter (fun c' => c' <> c) reg) else Raise KeyError.

(** [for collector in cs: REGISTRY.unregister(collector)]: the loop variable
    is the module-level name [collector] itself. *)
Fixpoint unregister_each (cs : list object) (ns : namespace) : result namespace :=
  match cs with
  | [] => Ok ns
  | c :: cs' =>
      reg ← unregister c (registered ns);
      unregister_each cs' (mkNamespace c reg)
  end.

Section Loop.

Variable E : environment.

(** [o.collect()]: the three default collectors have a [collect] method
    too, which reads the interpreter and the process and returns metric
    families; it touches neither the two collectors nor an instrument. *)
Definition call_collect (o : object) : M unit :=
  match o with
  | the_apex_collector => ApexCollector.collect E
  | PROCESS_COLLECTOR | PLATFORM_COLLECTOR | GC_COLLECTOR => ret tt
  end.

(** [n] turns of [while True: collector.collect(); time.sleep(30)]: an
    exception ends the program. *)
Fixpoint poll (n : nat) (o : object) : M unit :=
  match n with
  | O => ret tt
  | S n' => call_collect o;; poll n' o
  end.

(** The main program for [n] turns of its loop, with [reg] the collectors
    [REGISTRY] holds when it starts: the exit status of a failed check, or
    what the last turn returned or raised and the state then. *)
Definition run (upper : string -> string) (environ : gmap string string)
    (reg : list object) (n : nat) : Z + (result unit * state) :=
  match Main.start upper environ with
  | inl status => inl status
  | inr st =>
      match unregister_each [PROCESS_COLLECTOR; PLATFORM_COLLECTOR; GC_COLLECTOR]
              (mkNamespace the_apex_collector reg) with
      | Raise e => inr (Raise e, st)
      | Ok ns => inr (poll n (collector ns) st)
      end
  end.

End Loop.

End MainLoop.

(** ** Example documents *)

Module Examples.

(** An environment for the examples.  Their documents hold no string
    where a number is read and no float, list or dict where a string is
    made, so the three conversions here are never called. *)
Definition environment_of (up : list request -> request -> http_outcome)
  : environment :=
  mkEnvironment (fun _ => None) (fun _ => None) (fun _ => "") false up.

Definition current_map : list (string * pyval) :=
  [ ("map", PStr "Kings Canyon");
    ("DurationInMinutes", PInt 45);
    ("remainingMins", PInt 10) ].

Definition next_map : list (string * pyval) :=
  [ ("map", PStr "World's Edge");
    ("DurationInMinutes", PInt 45);
    ("start", PInt 1700000000) ].

Definition map_rotation_fields : list (string * pyval) :=
  [ ("current", PDict current_map); ("next", PDict next_map) ].

Definition map_rotation : pyval := PDict map_rotation_fields.

Definition all_legends : list (string * pyval) :=
  [ ("Global", PDict [("data", PList [PDict [("key", PStr "kills"); ("value", PInt 99)]])]);
    ("Wraith", PDict [("data", PList [PDict [("key", PStr "kills"); ("value", PInt 12)]])]);
    ("Bangalore", PDict [("data", PList [PDict [("key", PStr "kills"); ("value", PInt 0)]])]);
    ("Octane", PDict []) ].

(** A player document: the selected legend lists its wins before its
    kills. *)
Definition player_stats : pyval :=
  PDict
    [ ("global",
        PDict [ ("name", PStr "chkpwd");
                ("platform", PStr "PC");
                ("level", PInt 120);
                ("toNextLevelPercent", PInt 40);
                ("bans", PDict [ ("isActive", PBool false);
                                 ("remainingSeconds", PInt 0) ]);
                ("rank", PDict [ ("rankName", PStr "Gold");
                                 ("rankScore", PInt 5400);
                                 ("rankDiv", PInt 2) ]);
                ("arena", PDict [ ("rankName", PStr "Unranked");
                                  ("rankScore", PInt 0);
                                  ("rankDiv", PInt 0) ]);
                ("battlepass", PDict [ ("level", PNone);
                                       ("history", PInt 7) ]) ]);
      ("realtime",
        PDict [ ("lobbyState", PStr "open");
                ("isOnline", PInt 1);
                ("isInGame", PInt 0);
                ("partyFull", PInt 0);
                ("selectedLegend", PStr "Wraith");
                ("currentState", PStr "inLobby") ]);
      ("legends",
        PDict [ ("selected",
                  PDict [ ("LegendName", PStr "Wraith");
                          ("data", PList [ PDict [("key", PStr "wins"); ("value", PInt 3)];
                                           PDict [("key", PStr "kills"); ("value", PInt 12)] ]) ]);
                ("all", PDict all_legends) ]);
      ("mozambiquehere_internal", PDict [("clusterSrv", PStr "eu-1")]);
      ("total", PDict [ ("kills", PDict [("value", PInt 250)]);
                        ("kd", PDict [("value", PInt 2)]) ]);
      ("processingTime", PInt 15) ].

(** An upstream that answers 200 with the two documents. *)
Definition steady (_ : list request) (r : request) : http_outcome :=
  if String.eqb (url r) MapDataCollector.URL
  then Responded (mkResponse 200 (Ok map_rotation))
  else Responded (mkResponse 200 (Ok player_stats)).

Definition steady_environment : environment := environment_of steady.

(** The state the main program builds with [PLAYER_NAME=chkpwd],
    [API_KEY=secret], [PLATFORM=PC]. *)
Definition started : state :=
  mkState []
    (PlayerStatsCollector.init (PStr "secret") PNone (PStr "chkpwd") (PStr "PC"))
    (MapDataCollector.init (PStr "secret") PNone (PStr "chkpwd"))
    ApexCollector.init.

(** The same, with both [USER_ID] and [PLAYER_NAME] given to the
    collectors, and with neither. *)
Definition both_set : state :=
  mkState []
    (PlayerStatsCollector.init (PStr "secret") (PStr "1007") (PStr "chkpwd") (PStr "PC"))
    (MapDataCollector.init (PStr "secret") (PStr "1007") (PStr "chkpwd"))
    ApexCollector.init.

Definition neither_set : state :=
  mkState []
    (PlayerStatsCollector.init (PStr "secret") PNone PNone (PStr "PC"))
    (MapDataCollector.init (PStr "secret") PNone PNone)
    ApexCollector.init.




(** The environment variables behind [both_set]. *)
Definition both_environ : gmap string string :=
  list_to_map [("USER_ID", "1007"); ("PLAYER_NAME", "chkpwd");
               ("API_KEY", "secret"); ("PLATFORM", "PC")].

(** An upstream that answers the player request and fails the map
    request. *)
Definition map_down (_ : list request) (r : request) : http_outcome :=
  if String.eqb (url r) MapDataCollector.URL
  then Failed Timeout
  else Responded (mkResponse 200 (Ok player_stats)).

End Examples.

(** ** More example documents *)

Module Scenes.

(** The environment variables behind [Examples.started]. *)
Definition name_environ : gmap string string :=
  list_to_map [("PLAYER_NAME", "chkpwd"); ("API_KEY", "secret");
               ("PLATFORM", "PC")].

(** The default collectors, as [REGISTRY] holds them when the program
    starts. *)
Definition default_registry : list MainLoop.object :=
  [MainLoop.PROCESS_COLLECTOR; MainLoop.PLATFORM_COLLECTOR;
   MainLoop.GC_COLLECTOR].

(** Two entries of a detail list: the wins and the kills. *)
Definition wins : pyval := PDict [("key", PStr "wins"); ("value", PInt 3)].

Definition kills : pyval := PDict [("key", PStr "kills"); ("value", PInt 12)].

(** A map document without its [next] section, and one whose [next]
    section has no map. *)
Definition no_next : pyval := PDict [("current", PDict Examples.current_map)].

Definition next_unnamed : list (string * pyval) :=
  [ ("DurationInMinutes", PInt 45); ("start", PInt 1700000000) ].

Definition no_next_map : pyval :=
  PDict [("current", PDict Examples.current_map); ("next", PDict next_unnamed)].

(** The example state once Bangalore has been seen with 5 kills: the child
    of [legend_kills] for Bangalore holds 5.0.  In the example document
    Bangalore has 0 kills. *)
Definition seen_bangalore : state :=
  with_instruments
    (<[("legend_kills", ["Bangalore"]) := Gauge (binary64_of_Z 5)]>
       (instruments Examples.started))
    Examples.started.

(** A collection of legends whose detail lists hold several entries: the
    kills of Wraith come after her wins and before a second kills entry,
    Bangalore has no kills entry, the first kills entry of Pathfinder is
    zero, the kills of Gibraltar come last and Lifeline has an empty
    list. *)
Definition entry (key : string) (value : Z) : pyval :=
  PDict [("key", PStr key); ("value", PInt value)].

Definition detail (entries : list pyval) : pyval :=
  PDict [("data", PList entries)].

Definition mixed_legends : list (string * pyval) :=
  [ ("Global", detail [entry "kills" 99]);
    ("Wraith", detail [entry "wins" 3; entry "kills" 12; entry "kills" 40]);
    ("Bangalore", detail [entry "wins" 2; entry "damage" 4000]);
    ("Octane", PDict []);
    ("Pathfinder", detail [entry "kills" 0; entry "kills" 7]);
    ("Gibraltar", detail [entry "damage" 900; entry "wins" 1; entry "kills" 5]);
    ("Lifeline", detail []) ].

(** The example player document with that collection for [legends.all]. *)
Definition section (doc : pyval) (k : string) : pyval :=
  match getitem doc k with Ok v => v | Raise _ => PNone end.

Definition mixed_player_stats : pyval :=
  PDict
    [ ("global", section Examples.player_stats "global");
      ("realtime", section Examples.player_stats "realtime");
      ("legends",
        PDict [ ("selected",
                  section (section Examples.player_stats "legends") "selected");
                ("all", PDict mixed_legends) ]);
      ("mozambiquehere_internal",
        section Examples.player_stats "mozambiquehere_internal");
      ("total", section Examples.player_stats "total");
      ("processingTime", section Examples.player_stats "processingTime") ].

Definition mixed (_ : list request) (r : request) : http_outcome :=
  if String.eqb (url r) MapDataCollector.URL
  then Responded (mkResponse 200 (Ok Examples.map_rotation))
  else Responded (mkResponse 200 (Ok mixed_player_stats)).


(** The example state after one call of [collect] on the example
    documents. *)
Definition shown : state :=
  snd (ApexCollector.collect Examples.steady_environment Examples.started).

End Scenes.

(** * The vocabulary of the properties *)

(** The attributes [__init__] sets and no method assigns again. *)
Definition credentials (o : collector) (st : state)
    (api_key uid player_name : pyval) : Prop :=
  attrs o st !! "headers" = Some (PDict [("Authorization", api_key)])
  /\ attrs o st !! "uid" = Some uid
  /\ attrs o st !! "player_name" = Some player_name.

(** The request [MapDataCollector.populate_data] makes. *)
Definition map_request (api_key : pyval) : request :=
  mkRequest MapDataCollector.URL (PDict [("Authorization", api_key)]) [] 10.

(** The request [PlayerStatsCollector.populate_data] makes, by the truth
    value of [self.player_name]. *)
Definition player_request (api_key uid player_name platform : pyval) : request :=
  if truthy player_name
  then PlayerStatsCollector.by_name (PDict [("Authorization", api_key)]) player_name platform
  else PlayerStatsCollector.by_uid (PDict [("Authorization", api_key)]) uid platform.

(** [requests.get(...).json()] *)
Definition get_json (E : environment) (r : request) : M pyval :=
  resp ← requests_get E r; json resp.

(** [preserves proj m]: running [m], whether it returns or raises, leaves
    the part [proj] of the state as it was. *)
Definition preserves {X A} (proj : state -> X) (m : M A) : Prop :=
  forall st, proj (snd (m st)) = proj st.

(** [issues u m]: [m] raises before any request, or it sends exactly one
    request, to [u]. *)
Definition issues {A} (u : string) (m : M A) : Prop :=
  forall st,
    (log (snd (m st)) = log st /\ is_ok (fst (m st)) = false)
    \/ (exists r, log (snd (m st)) = (log st ++ [r])%list /\ url r = u).

(** The addresses of the requests sent by a call of [collect] from [st]. *)
Definition requested (E : environment) (st : state) : list string :=
  map url (drop (length (log st)) (log (snd (ApexCollector.collect E st)))).

(** The player collector has its credentials and its platform, and the
    upstream answers its request with the document [player_stats]. *)
Definition player_fetched (E : environment) (st : state)
    (api_key uid player_name platform player_stats : pyval) : Prop :=
  credentials Player st api_key uid player_name
  /\ attrs Player st !! "platform" = Some platform
  /\ exists status,
       upstream E (log st) (player_request api_key uid player_name platform)
       = Responded (mkResponse status (Ok player_stats)).

(** The per-legend kill mapping as the specification words it, with no
    part of the program in it. *)

(** An entry of a detail list whose key equals ["kills"]. *)
Definition kills_entry (item : pyval) : bool :=
  match item with
  | PDict d =>
      match Dict.get "key" d with
      | Some (PStr k) => String.eqb k "kills"
      | _ => false
      end
  | _ => false
  end.

(** [kills_value data v]: [v] is the value whose key equals ["kills"]
    within the detail list [data], that of the first such entry if there
    are several, and zero if there is none. *)
Definition kills_value (data : list pyval) (v : pyval) : Prop :=
  match List.find kills_entry data with
  | Some (PDict d) => Dict.get "value" d = Some v
  | Some _ => False
  | None => v = PInt 0
  end.

(** [counted legends name v]: in the collection [legends], the legend
    [name] is not ["Global"], it has a detail list, and its kill count in
    that list is [v], which is not zero. *)
Definition counted (legends : list (string * pyval)) (name : string) (v : pyval)
  : Prop :=
  name <> "Global"
  /\ exists info data,
       Dict.get name legends = Some (PDict info)
       /\ Dict.get "data" info = Some (PList data)
       /\ kills_value data v
       /\ ne_zero v = true.

(** The attribute the loop over the legends assigns. *)
Definition kills_attr : string := "all_legends_kills".

(** The attributes a fetch reads and never assigns. *)
Definition config_names : list string := ["headers"; "uid"; "player_name"; "platform"].

(** [name] is one of them. *)
Definition is_config (name : string) : bool :=
  existsb (String.eqb name) config_names.

(** What they hold in a collector. *)
Definition config (o : collector) (st : state) : list (option pyval) :=
  map (fun name => attrs o st !! name) config_names.

(** Assignments that leave the configuration alone. *)
Definition safe (W : gmap string pyval) : Prop :=
  forall name, is_config name = true -> W !! name = None.

(** [replay o m]: from two states in which the collector [o] has the same
    configuration, [m] returns or raises alike, and what it does to the
    attributes of [o] is the same set of assignments, none to the
    configuration. *)
Definition replay (o : collector) {A} (m : M A) : Prop :=
  forall s1 s2,
    config o s1 = config o s2 ->
    fst (m s1) = fst (m s2)
    /\ exists W, safe W
                 /\ attrs o (snd (m s1)) = W ∪ attrs o s1
                 /\ attrs o (snd (m s2)) = W ∪ attrs o s2.

(** What one turn of the loop over the legends makes of the dict [d]. *)
Definition step_dict (legend : string * pyval) (d : pyval) : result pyval :=
  let (legend_name, legend_info) := legend in
  if String.eqb legend_name "Global" then Ok d
  else
    has_data ← contains "data" legend_info;
    if negb has_data then Ok d
    else
      kill_value ← PlayerStatsCollector.kill_value_of legend_info;
      if ne_zero kill_value then setitem d legend_name kill_value else Ok d.

(** What a statement does to the instruments: it sets one, or it makes one
    that is not there yet. *)
Inductive write : Type :=
  | Put (k : string * list string) (x : sample)
  | PutIfAbsent (k : string * list string) (x : sample).

(** The instruments after one write. *)
Definition apply_write (i : gmap (string * list string) sample) (w : write)
  : gmap (string * list string) sample :=
  match w with
  | Put k x => <[k := x]> i
  | PutIfAbsent k x =>
      match i !! k with
      | Some _ => i
      | None => <[k := x]> i
      end
  end.

(** The instruments after a list of writes, first to last. *)
Definition run_writes (W : list write) (i : gmap (string * list string) sample)
  : gmap (string * list string) sample :=
  foldl apply_write i W.

(** The sample of the last [Put] on [k] in [W]. *)
Fixpoint last_put (W : list write) (k : string * list string) : option sample :=
  match W with
  | [] => None
  | w :: W' =>
      match last_put W' k with
      | Some x => Some x
      | None =>
          match w with
          | Put k' x => if decide (k' = k) then Some x else None
          | PutIfAbsent _ _ => None
          end
      end
  end.

(** The sample of the first [PutIfAbsent] on [k] in [W]. *)
Fixpoint first_absent (W : list write) (k : string * list string) : option sample :=
  match W with
  | [] => None
  | PutIfAbsent k' x :: W' => if decide (k' = k) then Some x else first_absent W' k
  | Put _ _ :: W' => first_absent W' k
  end.

(** The two collectors have the same attributes in [s'] as in [s]. *)
Definition same_attrs (s s' : state) : Prop :=
  attrs Player s' = attrs Player s /\ attrs Map s' = attrs Map s.

(** [scripted m]: the attributes of the two collectors decide whether [m]
    returns and what it writes to the instruments, and [m] assigns no
    attribute. *)
Definition scripted {A} (m : M A) : Prop :=
  forall s, exists r W, forall s',
    same_attrs s s' ->
    fst (m s') = r
    /\ instruments (snd (m s')) = run_writes W (instruments s')
    /\ same_attrs s (snd (m s')).


(** The exceptions of reading a document that has not the expected shape. *)
Definition is_malformed (e : exn) : bool :=
  match e with
  | KeyError | TypeError | IndexError | ValueError | OverflowError
  | AttributeError => true
  | _ => false
  end.

(** [fails_in P r]: an exception that the expression [r] raises is in
    [P]. *)
Definition fails_in {A} (P : exn -> Prop) (r : result A) : Prop :=
  forall e, r = Raise e -> P e.

(** [raises_only P m]: an exception that the statement [m] raises is in
    [P]. *)
Definition raises_only {A} (P : exn -> Prop) (m : M A) : Prop :=
  forall st e, fst (m st) = Raise e -> P e.


(** [os.environ.get(k)] is true as [if] tests it: the variable is there and
    is not the empty string. *)
Definition is_set (environ : gmap string string) (k : string) : bool :=
  match environ !! k with
  | Some s => negb (String.eqb s "")
  | None => false
  end.

(** The names of the levels of [logging]. *)
Definition level_names : list string :=
  ["CRITICAL"; "FATAL"; "ERROR"; "WARN"; "WARNING"; "INFO"; "DEBUG"; "NOTSET"].

(** The level the program asks for: [LOG_LEVEL] in upper case, and [INFO]
    when the variable is not set. *)
Definition asked_level (upper : string -> string) (environ : gmap string string)
  : string :=
  upper (default "INFO" (environ !! "LOG_LEVEL")).

Definition known_level (name : string) : bool :=
  bool_decide (name ∈ level_names).

(** An entry of a detail list that has a key, and not the key ["kills"]. *)
Definition other_key (item : pyval) : Prop :=
  exists k, getitem item "key" = Ok k /\ eq_str k "kills" = false.

(** The sections of the player document that [populate_data] reads before
    its first assignment, and those of the map document. *)
Definition player_sections : list string :=
  ["global"; "realtime"; "legends"; "mozambiquehere_internal"; "total";
   "processingTime"].

Definition map_sections : list string := ["current"; "next"].

(** The gauges [collect] sets from one attribute of a collector each: the
    attribute of [ApexCollector] that holds the gauge, the collector, and
    the attribute read. *)
Definition gauge_rows : list (string * collector * string) :=
  [ ("current_session_duration", Map, "current_map_duration");
    ("current_session_remaining", Map, "current_map_remaining");
    ("next_session_duration", Map, "next_map_duration");
    ("next_session_start", Map, "next_map_start");
    ("level", Player, "level");
    ("next_level_percentage", Player, "next_level_percentage");
    ("ban_duration", Player, "ban_duration");
    ("br_rank_score", Player, "br_rank_score");
    ("br_rank_div", Player, "br_rank_div");
    ("arena_rank_score", Player, "arena_rank_score");
    ("arena_rank_div", Player, "arena_rank_div");
    ("battle_pass_level", Player, "battle_pass_level");
    ("battle_pass_history", Player, "battle_pass_history");
    ("active_legend_kills", Player, "current_legend_br_kills");
    ("kills", Player, "kills");
    ("kill_death_ratio", Player, "kill_death_ratio");
    ("processing_time", Player, "processing_time") ].

(** The info records [collect] sets from one attribute as it is: the
    attribute that holds the record, its one key, the collector and the
    attribute read. *)
Definition info_rows : list (string * string * collector * string) :=
  [ ("current_session_map", "map_name", Map, "current_map_name");
    ("next_session_map", "next_map_name", Map, "next_map_name");
    ("player_identifier", "player_identifier", Player, "player_identifier");
    ("player_platform", "platform", Player, "player_platform");
    ("br_rank_name", "br_rank_name", Player, "br_rank_name");
    ("arena_rank_name", "arena_rank_name", Player, "arena_rank_name");
    ("lobby_state", "lobby_state", Player, "lobby_state");
    ("selected_legend", "selected_legend", Player, "selected_legend");
    ("active_legend", "active_legend", Player, "current_legend_name");
    ("current_state", "current_state", Player, "current_state");
    ("mozambique_cluster_server", "mozambique_cluster_server", Player,
     "mozambique_cluster_server") ].

(** In [st], the gauge of a row holds [float] of the attribute of the row. *)
Definition shows_gauge (E : environment) (st : state)
    (row : string * collector * string) : Prop :=
  let '(name, o, attr) := row in
  exists x f,
    attrs o st !! attr = Some x
    /\ py_float E x = Ok f
    /\ instruments st !! (name, []) = Some (Gauge f).

(** In [st], the info record of a row holds the attribute of the row under
    the key of the row. *)
Definition shows_info (st : state)
    (row : string * string * collector * string) : Prop :=
  let '(name, key, o, attr) := row in
  exists x,
    attrs o st !! attr = Some x
    /\ instruments st !! (name, []) = Some (Info [(key, x)]).

(** The child of [legend_kills] for the legend [name]. *)
Definition legend_child (name : string) : string * list string :=
  ("legend_kills", [name]).

(** In [st], the info record [name] holds [str] of the attribute [attr] of
    the player collector under the key [key]. *)
Definition shows_str (E : environment) (st : state) (name key attr : string)
  : Prop :=
  exists x,
    attrs Player st !! attr = Some x
    /\ instruments st !! (name, []) = Some (Info [(key, PStr (py_str E x))]).

(** In [st], the gauge [name] holds [float(int(...))] of the attribute
    [name] of the player collector. *)
Definition shows_int (E : environment) (st : state) (name : string) : Prop :=
  exists x n f,
    attrs Player st !! name = Some x
    /\ py_int E x = Ok n
    /\ float_of_int n = Ok f
    /\ instruments st !! (name, []) = Some (Gauge f).

(** In [st], [all_legends_kills] is a dict, and when no key is repeated in
    it each legend of the dict has a child of [legend_kills] that holds
    [float] of its kills. *)
Definition shows_children (E : environment) (st : state) : Prop :=
  exists d,
    attrs Player st !! "all_legends_kills" = Some (PDict d)
    /\ (NoDup (Dict.keys d) ->
        forall name v,
          Dict.get name d = Some v ->
          exists f,
            py_float E v = Ok f
            /\ instruments st !! legend_child name = Some (Gauge f)).

(** [keeps A k m]: run from a state in which the player collector has the
    attributes [A], the statement [m] leaves the sample of [k] and those
    attributes as they were. *)
Definition keeps (A : gmap string pyval) (k : string * list string) {B}
    (m : M B) : Prop :=
  forall st,
    attrs Player st = A ->
    instruments (snd (m st)) !! k = instruments st !! k
    /\ attrs Player (snd (m st)) = A.

(** * Properties *)

(** ** Running statements *)

Lemma bind_unfold {A B} (m : M A) (f : A -> M B) st :
  (m ≫= f) st =
  match m st with
  | (Ok a, st') => f a st'
  | (Raise e, st') => (Raise e, st')
  end.
Proof. reflexivity. Qed.

Lemma bind_ok {A B} (m : M A) (f : A -> M B) st b st' :
  (m ≫= f) st = (Ok b, st') ->
  exists a s, m st = (Ok a, s) /\ f a s = (Ok b, st').
Proof.
  rewrite bind_unfold. destruct (m st) as [[a|e] s]; [eauto | discriminate].
Qed.

Lemma bind_raise {A B} (m : M A) (f : A -> M B) st e st' :
  m st = (Raise e, st') -> (m ≫= f) st = (Raise e, st').
Proof. intros H. rewrite bind_unfold, H. reflexivity. Qed.

Lemma bind_step {A B} (m : M A) (f : A -> M B) st a st' :
  m st = (Ok a, st') -> (m ≫= f) st = f a st'.
Proof. intros H. rewrite bind_unfold, H. reflexivity. Qed.

Lemma run_getattr {B} o name v (f : pyval -> M B) st :
  attrs o st !! name = Some v -> (getattr o name ≫= f) st = f v st.
Proof. intros H. apply bind_step. unfold getattr. rewrite H. reflexivity. Qed.

Lemma run_lift {A B} (r : result A) a (f : A -> M B) st :
  r = Ok a -> (lift r ≫= f) st = f a st.
Proof. intros ->. reflexivity. Qed.

Lemma run_setattr {B} o name v (f : unit -> M B) st :
  (setattr o name v ≫= f) st = f tt (with_attrs o (<[name := v]> (attrs o st)) st).
Proof. reflexivity. Qed.

Lemma run_assign {B} o name e v (f : unit -> M B) st :
  e = Ok v ->
  (assign o name e ≫= f) st = f tt (with_attrs o (<[name := v]> (attrs o st)) st).
Proof. intros ->. reflexivity. Qed.

Lemma run_assign_last o name e v st :
  e = Ok v ->
  assign o name e st = (Ok tt, with_attrs o (<[name := v]> (attrs o st)) st).
Proof. intros ->. reflexivity. Qed.

Lemma attrs_with_attrs o a st : attrs o (with_attrs o a st) = a.
Proof. destruct o; reflexivity. Qed.

Lemma attrs_with_log o l st : attrs o (with_log l st) = attrs o st.
Proof. destruct o; reflexivity. Qed.

Lemma getitem_dict d k v : Dict.get k d = Some v -> getitem (PDict d) k = Ok v.
Proof. intros H. simpl. rewrite H. reflexivity. Qed.

(** ** Fetching a document *)

Lemma get_json_run E r st :
  get_json E r st =
  (match upstream E (log st) r with
   | Failed why => Raise (RequestException why)
   | Responded resp => json_body resp
   end, with_log (log st ++ [r]) st).
Proof.
  unfold get_json, requests_get, json. rewrite bind_unfold.
  destruct (upstream E (log st) r) as [why|resp]; [reflexivity|].
  simpl. destruct (json_body resp); reflexivity.
Qed.

Lemma get_map_rotation_run E st api_key uid player_name :
  credentials Map st api_key uid player_name ->
  MapDataCollector.get_map_rotation E st = get_json E (map_request api_key) st.
Proof.
  intros (Hh & _ & _). unfold MapDataCollector.get_map_rotation.
  rewrite (run_getattr _ _ _ _ _ Hh). reflexivity.
Qed.

Lemma get_player_stats_run E st api_key uid player_name platform :
  credentials Player st api_key uid player_name ->
  attrs Player st !! "platform" = Some platform ->
  PlayerStatsCollector.get_player_stats E st
  = get_json E (player_request api_key uid player_name platform) st.
Proof.
  intros (Hh & Hu & Hn) Hp.
  unfold PlayerStatsCollector.get_player_stats, player_request.
  rewrite (run_getattr _ _ _ _ _ Hn).
  destruct (truthy player_name).
  - rewrite (run_getattr _ _ _ _ _ Hh), (run_getattr _ _ _ _ _ Hn),
      (run_getattr _ _ _ _ _ Hp). reflexivity.
  - rewrite (run_getattr _ _ _ _ _ Hh), (run_getattr _ _ _ _ _ Hu),
      (run_getattr _ _ _ _ _ Hp). reflexivity.
Qed.

(** With its credentials in place, a fetch is the request followed by the
    extraction. *)
Lemma map_populate_run E st api_key uid player_name :
  credentials Map st api_key uid player_name ->
  MapDataCollector.populate_data E st
  = (get_json E (map_request api_key) ≫= MapDataCollector.extract) st.
Proof.
  intros Hc. pose proof Hc as (Hh & _ & _).
  unfold MapDataCollector.populate_data.
  rewrite (run_getattr _ _ _ _ _ Hh).
  rewrite (run_lift _ api_key) by reflexivity.
  rewrite !bind_unfold, (get_map_rotation_run _ _ _ _ _ Hc). reflexivity.
Qed.

Lemma player_populate_run E st api_key uid player_name platform :
  credentials Player st api_key uid player_name ->
  attrs Player st !! "platform" = Some platform ->
  PlayerStatsCollector.populate_data E st
  = (get_json E (player_request api_key uid player_name platform)
       ≫= PlayerStatsCollector.extract E) st.
Proof.
  intros Hc Hp. pose proof Hc as (Hh & _ & _).
  unfold PlayerStatsCollector.populate_data.
  rewrite (run_getattr _ _ _ _ _ Hh).
  rewrite (run_lift _ api_key) by reflexivity.
  rewrite !bind_unfold, (get_player_stats_run _ _ _ _ _ _ Hc Hp). reflexivity.
Qed.

(** ** The map-rotation snapshot *)

(** C4.  A map-rotation document of the documented shape is projected
    field by field: [current.map], [current.DurationInMinutes] and
    [current.remainingMins] become [current_map_name],
    [current_map_duration] and [current_map_remaining]; [next.map],
    [next.start] and [next.DurationInMinutes] become [next_map_name],
    [next_map_start] and [next_map_duration]. *)
Theorem map_fetch_direct_projection
    (E : environment) (st : state) (api_key uid player_name : pyval)
    (status : Z) (doc cur nxt : list (string * pyval))
    (cmap cdur crem nmap nstart ndur : pyval) :
  credentials Map st api_key uid player_name ->
  upstream E (log st) (map_request api_key)
    = Responded (mkResponse status (Ok (PDict doc))) ->
  Dict.get "current" doc = Some (PDict cur) ->
  Dict.get "next" doc = Some (PDict nxt) ->
  Dict.get "map" cur = Some cmap ->
  Dict.get "DurationInMinutes" cur = Some cdur ->
  Dict.get "remainingMins" cur = Some crem ->
  Dict.get "map" nxt = Some nmap ->
  Dict.get "start" nxt = Some nstart ->
  Dict.get "DurationInMinutes" nxt = Some ndur ->
  exists st',
    MapDataCollector.populate_data E st = (Ok tt, st')
    /\ attrs Map st' !! "current_map_name" = Some cmap
    /\ attrs Map st' !! "current_map_duration" = Some cdur
    /\ attrs Map st' !! "current_map_remaining" = Some crem
    /\ attrs Map st' !! "next_map_name" = Some nmap
    /\ attrs Map st' !! "next_map_start" = Some nstart
    /\ attrs Map st' !! "next_map_duration" = Some ndur.
Proof.
  intros Hcr Hup Hc Hn H1 H2 H3 H4 H5 H6.
  rewrite (map_populate_run _ _ _ _ _ Hcr), bind_unfold, get_json_run, Hup.
  simpl json_body. cbv iota beta.
  unfold MapDataCollector.extract.
  rewrite (run_lift _ (PDict cur)) by (apply getitem_dict; assumption).
  rewrite (run_lift _ (PDict nxt)) by (apply getitem_dict; assumption).
  rewrite (run_assign _ _ _ cmap) by (apply getitem_dict; assumption).
  rewrite (run_assign _ _ _ nmap) by (apply getitem_dict; assumption).
  rewrite (run_assign _ _ _ cdur) by (apply getitem_dict; assumption).
  rewrite (run_assign _ _ _ ndur) by (apply getitem_dict; assumption).
  rewrite (run_assign _ _ _ crem) by (apply getitem_dict; assumption).
  rewrite (run_assign_last _ _ _ nstart) by (apply getitem_dict; assumption).
  eexists; split; [reflexivity|].
  simpl. repeat split; by simplify_map_eq.
Qed.

(** ** What a statement leaves alone *)

Section Preserves.

Context {X : Type} (proj : state -> X).

Lemma preserves_ret {A} (a : A) : preserves proj (mret a).
Proof. intros st. reflexivity. Qed.

Lemma preserves_lift {A} (r : result A) : preserves proj (lift r).
Proof. intros st. reflexivity. Qed.

Lemma preserves_raise {A} e : preserves proj (@raise A e).
Proof. intros st. reflexivity. Qed.

Lemma preserves_getattr o name : preserves proj (getattr o name).
Proof. intros st. unfold getattr. destruct (attrs o st !! name); reflexivity. Qed.

Lemma preserves_bind {A B} (m : M A) (f : A -> M B) :
  preserves proj m -> (forall a, preserves proj (f a)) ->
  preserves proj (m ≫= f).
Proof.
  intros Hm Hf st. rewrite bind_unfold. specialize (Hm st).
  destruct (m st) as [[a|e] s]; simpl in *; [|assumption].
  rewrite Hf. assumption.
Qed.

Lemma preserves_for_each {A} (l : list A) (body : A -> M unit) :
  (forall x, preserves proj (body x)) -> preserves proj (for_each l body).
Proof.
  intros Hb. induction l as [|x l IH]; simpl.
  - apply preserves_ret.
  - apply preserves_bind; auto.
Qed.

Lemma preserves_json resp : preserves proj (json resp).
Proof. apply preserves_lift. Qed.

End Preserves.

Lemma setattr_instruments o name v : preserves instruments (setattr o name v).
Proof. intros st. destruct o; reflexivity. Qed.

Lemma setattr_log o name v : preserves log (setattr o name v).
Proof. intros st. destruct o; reflexivity. Qed.

Lemma setattr_other o name o' name' v :
  o <> o' \/ name <> name' ->
  preserves (fun st => attrs o st !! name) (setattr o' name' v).
Proof.
  intros H st. destruct o, o'; simpl; try reflexivity;
    (destruct H as [H|H]; [congruence|]); by rewrite lookup_insert_ne.
Qed.

Lemma requests_get_instruments E r : preserves instruments (requests_get E r).
Proof. intros st. unfold requests_get. destruct (upstream E (log st) r); reflexivity. Qed.

Lemma requests_get_attrs E r o : preserves (attrs o) (requests_get E r).
Proof.
  intros st. unfold requests_get.
  destruct (upstream E (log st) r); simpl; apply attrs_with_log.
Qed.

Lemma requests_get_attr E r o name :
  preserves (fun st => attrs o st !! name) (requests_get E r).
Proof. intros st. simpl. by rewrite requests_get_attrs. Qed.

Lemma store_log name ls x : preserves log (store name ls x).
Proof. intros st. reflexivity. Qed.

Lemma store_attrs name ls x o : preserves (attrs o) (store name ls x).
Proof. intros st. destruct o; reflexivity. Qed.

Lemma labels_log name label : preserves log (labels name label).
Proof.
  intros st. unfold labels. destruct (instruments st !! (name, [label])); reflexivity.
Qed.

Lemma labels_attrs name label o : preserves (attrs o) (labels name label).
Proof.
  intros st. unfold labels.
  destruct (instruments st !! (name, [label])); destruct o; reflexivity.
Qed.

(** Goes through a statement, leaving the side conditions on names that
    [done] does not settle. *)
Ltac frame :=
  repeat first
    [ apply preserves_bind; [|intros ?]
    | apply preserves_ret
    | apply preserves_lift
    | apply preserves_raise
    | apply preserves_getattr
    | apply preserves_json
    | apply preserves_for_each; intros ?
    | apply setattr_instruments
    | apply setattr_log
    | apply setattr_other; solve [ left; discriminate | right; discriminate ]
    | apply requests_get_instruments
    | apply requests_get_attrs
    | apply requests_get_attr
    | apply store_log
    | apply store_attrs
    | apply labels_log
    | apply labels_attrs
    | match goal with
      | |- preserves _ (assign _ _ _) => unfold assign
      | |- preserves _ (if ?b then _ else _) => destruct b
      | |- preserves _ (let (_, _) := ?p in _) => destruct p
      | |- preserves _ (match ?x with _ => _ end) => destruct x
      end ].

Lemma legend_step_instruments legend :
  preserves instruments (PlayerStatsCollector.legend_step legend).
Proof. unfold PlayerStatsCollector.legend_step. frame. Qed.

Lemma legend_step_log legend :
  preserves log (PlayerStatsCollector.legend_step legend).
Proof. unfold PlayerStatsCollector.legend_step. frame. Qed.

Lemma get_player_stats_instruments E :
  preserves instruments (PlayerStatsCollector.get_player_stats E).
Proof. unfold PlayerStatsCollector.get_player_stats. frame. Qed.

(** Neither fetch touches an instrument. *)
Lemma player_populate_instruments E :
  preserves instruments (PlayerStatsCollector.populate_data E).
Proof.
  unfold PlayerStatsCollector.populate_data, PlayerStatsCollector.extract.
  pose proof legend_step_instruments. pose proof (get_player_stats_instruments E).
  frame; auto.
Qed.

Lemma map_populate_instruments E :
  preserves instruments (MapDataCollector.populate_data E).
Proof.
  unfold MapDataCollector.populate_data, MapDataCollector.get_map_rotation,
    MapDataCollector.extract.
  frame.
Qed.

(** ** A tick whose fetch fails *)

(** C3.  When the player fetch raises, or the player fetch returns and the
    map fetch raises, [collect] raises the same exception and every
    instrument holds what it held before the call: the instruments are
    written after both fetches have returned. *)
Theorem fetch_failure_keeps_instruments (E : environment) (st : state) (e : exn) :
  fst (PlayerStatsCollector.populate_data E st) = Raise e
  \/ (fst (PlayerStatsCollector.populate_data E st) = Ok tt
      /\ fst (MapDataCollector.populate_data E
                (snd (PlayerStatsCollector.populate_data E st))) = Raise e) ->
  fst (ApexCollector.collect E st) = Raise e
  /\ instruments (snd (ApexCollector.collect E st)) = instruments st.
Proof.
  intros H. unfold ApexCollector.collect. rewrite bind_unfold.
  pose proof (player_populate_instruments E st) as Hp.
  destruct (PlayerStatsCollector.populate_data E st) as [[[]|e1] s1] eqn:E1;
    simpl in *.
  - destruct H as [H|[_ H]]; [discriminate|].
    rewrite bind_unfold.
    pose proof (map_populate_instruments E s1) as Hm.
    destruct (MapDataCollector.populate_data E s1) as [[[]|e2] s2] eqn:E2;
      simpl in *; [discriminate|].
    split; congruence.
  - destruct H as [H|[H _]]; [|discriminate].
    split; congruence.
Qed.

(** ** The requests of a tick *)

Lemma issues_requests_get E r : issues (url r) (requests_get E r).
Proof.
  intros st. right. exists r. unfold requests_get.
  destruct (upstream E (log st) r); auto.
Qed.

Lemma issues_raise {A} u e : issues u (@raise A e).
Proof. intros st. left. auto. Qed.

Lemma issues_before {A B} u (m : M A) (f : A -> M B) :
  preserves log m -> (forall a, issues u (f a)) -> issues u (m ≫= f).
Proof.
  intros Hm Hf st. rewrite bind_unfold. specialize (Hm st).
  destruct (m st) as [[a|e] s]; simpl in *.
  - rewrite <- Hm. apply Hf.
  - left. auto.
Qed.

Lemma issues_after {A B} u (m : M A) (f : A -> M B) :
  issues u m -> (forall a, preserves log (f a)) -> issues u (m ≫= f).
Proof.
  intros Hm Hf st. rewrite bind_unfold. specialize (Hm st).
  destruct (m st) as [[a|e] s]; simpl in *.
  - destruct Hm as [[_ ?]|Hm]; [discriminate|]. right.
    rewrite Hf. assumption.
  - destruct Hm as [[? _]|Hm]; [left|right]; auto.
Qed.

Lemma get_player_stats_issues E :
  issues PlayerStatsCollector.URL (PlayerStatsCollector.get_player_stats E).
Proof.
  unfold PlayerStatsCollector.get_player_stats.
  apply issues_before; [frame|]. intros pn. destruct (truthy pn).
  - do 3 (apply issues_before; [frame|]; intros ?).
    apply issues_after; [|intros ?; frame].
    apply (issues_requests_get E (PlayerStatsCollector.by_name _ _ _)).
  - do 3 (apply issues_before; [frame|]; intros ?).
    apply issues_after; [|intros ?; frame].
    apply (issues_requests_get E (PlayerStatsCollector.by_uid _ _ _)).
Qed.

Lemma player_populate_issues E :
  issues PlayerStatsCollector.URL (PlayerStatsCollector.populate_data E).
Proof.
  unfold PlayerStatsCollector.populate_data.
  do 2 (apply issues_before; [frame|]; intros ?).
  apply issues_after; [apply get_player_stats_issues|].
  intros ?. unfold PlayerStatsCollector.extract.
  pose proof legend_step_log. frame; auto.
Qed.

Lemma map_populate_issues E :
  issues MapDataCollector.URL (MapDataCollector.populate_data E).
Proof.
  unfold MapDataCollector.populate_data, MapDataCollector.get_map_rotation.
  do 2 (apply issues_before; [frame|]; intros ?).
  apply issues_after; [|intros ?; unfold MapDataCollector.extract; frame].
  apply issues_before; [frame|]; intros ?.
  apply issues_after; [|intros ?; frame].
  apply (issues_requests_get E (mkRequest MapDataCollector.URL _ _ _)).
Qed.

Lemma legend_kills_step_log E entry :
  preserves log (ApexCollector.legend_kills_step E entry).
Proof.
  unfold ApexCollector.legend_kills_step, child_set. frame.
Qed.

Lemma project_log E : preserves log (ApexCollector.project E).
Proof.
  unfold ApexCollector.project, info, gauge_set.
  pose proof (legend_kills_step_log E). frame; auto.
Qed.

(** C7, as the code has it.  A tick fetches the player statistics first,
    then the map rotation, then writes the instruments: the requests of a
    call of [collect] are none, the player request alone, or the player
    request followed by the map request, and a call that returns or that
    changes an instrument has sent both. *)
Theorem tick_order (E : environment) (st : state) :
  (requested E st = []
   \/ requested E st = [PlayerStatsCollector.URL]
   \/ requested E st = [PlayerStatsCollector.URL; MapDataCollector.URL])
  /\ (fst (ApexCollector.collect E st) = Ok tt
      \/ instruments (snd (ApexCollector.collect E st)) <> instruments st ->
      requested E st = [PlayerStatsCollector.URL; MapDataCollector.URL]).
Proof.
  unfold requested, ApexCollector.collect. rewrite bind_unfold.
  pose proof (player_populate_issues E st) as Hp.
  pose proof (player_populate_instruments E st) as Ip.
  destruct (PlayerStatsCollector.populate_data E st) as [[[]|e1] s1];
    simpl in Hp, Ip.
  - destruct Hp as [[_ ?]|(p & Hp & Up)]; [discriminate|].
    rewrite bind_unfold.
    pose proof (map_populate_issues E s1) as Hm.
    pose proof (map_populate_instruments E s1) as Im.
    destruct (MapDataCollector.populate_data E s1) as [[[]|e2] s2];
      simpl in Hm, Im.
    + destruct Hm as [[_ ?]|(m & Hm & Um)]; [discriminate|].
      rewrite (project_log E s2), Hm, Hp, <- app_assoc, drop_app_length.
      simpl. rewrite Up, Um. auto.
    + simpl. destruct Hm as [[Hm _]|(m & Hm & Um)].
      * rewrite Hm, Hp, drop_app_length. simpl. rewrite Up.
        split; [auto|]. intros [?|H]; [discriminate|]. congruence.
      * rewrite Hm, Hp, <- app_assoc, drop_app_length. simpl.
        rewrite Up, Um. auto.
  - simpl. destruct Hp as [[Hp _]|(p & Hp & Up)].
    + rewrite Hp, drop_all. simpl.
      split; [auto|]. intros [?|H]; [discriminate|]. congruence.
    + rewrite Hp, drop_app_length. simpl. rewrite Up.
      split; [auto|]. intros [?|H]; [discriminate|]. congruence.
Qed.

(** C7, as the claim has it, fails: with both documents served, the first
    request of the tick goes to the player endpoint, not to the map
    endpoint. *)
Lemma tick_order_map_first_fails :
  requested (Examples.environment_of Examples.steady) Examples.started
    = [PlayerStatsCollector.URL; MapDataCollector.URL]
  /\ requested (Examples.environment_of Examples.steady) Examples.started
    <> [MapDataCollector.URL; PlayerStatsCollector.URL].
Proof.
  assert (H : requested (Examples.environment_of Examples.steady) Examples.started
              = [PlayerStatsCollector.URL; MapDataCollector.URL])
    by (vm_compute; reflexivity).
  split; [exact H|]. rewrite H. discriminate.
Qed.

(** ** The player request *)

Lemma preserves_after {X A B} (proj : state -> X) (m : M A) (f : A -> M B) st :
  (forall a, preserves proj (f a)) ->
  proj (snd ((m ≫= f) st)) = proj (snd (m st)).
Proof.
  intros Hf. rewrite bind_unfold.
  destruct (m st) as [[a|e] s]; simpl; [apply Hf | reflexivity].
Qed.

Lemma player_extract_log E player_stats :
  preserves log (PlayerStatsCollector.extract E player_stats).
Proof.
  unfold PlayerStatsCollector.extract. pose proof legend_step_log. frame; auto.
Qed.

(** C9.  When [self.player_name] is set (true as [if self.player_name]
    tests it), the one request of the fetch carries [player_name] and
    [platform] and no [uid]; otherwise it carries [uid] and [platform]. *)
Theorem player_request_selection
    (E : environment) (st : state) (api_key uid player_name platform : pyval) :
  credentials Player st api_key uid player_name ->
  attrs Player st !! "platform" = Some platform ->
  exists r,
    log (snd (PlayerStatsCollector.populate_data E st)) = (log st ++ [r])%list
    /\ url r = PlayerStatsCollector.URL
    /\ (truthy player_name = true ->
        params r = [("player_name", player_name); ("platform", platform)]
        /\ Dict.get "uid" (params r) = None)
    /\ (truthy player_name = false ->
        params r = [("uid", uid); ("platform", platform)]).
Proof.
  intros Hc Hp.
  exists (player_request api_key uid player_name platform). split.
  - rewrite (player_populate_run _ _ _ _ _ _ Hc Hp).
    rewrite (preserves_after log) by apply player_extract_log.
    rewrite get_json_run. reflexivity.
  - unfold player_request. destruct (truthy player_name); simpl.
    + split; [reflexivity|]. split; [auto|]. discriminate.
    + split; [reflexivity|]. split; [discriminate|auto].
Qed.

(** ** Reading a fetch that returned *)

Lemma lift_ok {A} (r : result A) a st st' :
  lift r st = (Ok a, st') -> r = Ok a /\ st' = st.
Proof. unfold lift. intros [= -> ->]. auto. Qed.

Lemma assign_ok o name e u st st' :
  assign o name e st = (Ok u, st') ->
  exists v, e = Ok v /\ st' = with_attrs o (<[name := v]> (attrs o st)) st.
Proof.
  unfold assign. intros H. apply bind_ok in H as (v & s & H1 & H2).
  apply lift_ok in H1 as [-> ->]. unfold setattr in H2.
  injection H2 as _ <-. eauto.
Qed.

Lemma setattr_ok o name v u st st' :
  setattr o name v st = (Ok u, st') ->
  st' = with_attrs o (<[name := v]> (attrs o st)) st.
Proof. unfold setattr. intros [= _ <-]. reflexivity. Qed.

Lemma result_bind_ok {A B} (r : result A) (f : A -> result B) b :
  r ≫= f = Ok b -> exists a, r = Ok a /\ f a = Ok b.
Proof. destruct r as [a|e]; [eauto | discriminate]. Qed.

Lemma kept {X A} (proj : state -> X) (m : M A) st r st' :
  preserves proj m -> m st = (r, st') -> proj st' = proj st.
Proof. intros Hm H. specialize (Hm st). rewrite H in Hm. exact Hm. Qed.

(** The loop over the legends assigns [all_legends_kills] and nothing
    else. *)
Lemma legend_step_attr o name legend :
  o <> Player \/ name <> "all_legends_kills" ->
  preserves (fun st => attrs o st !! name) (PlayerStatsCollector.legend_step legend).
Proof.
  intros H. unfold PlayerStatsCollector.legend_step. frame.
  apply setattr_other. assumption.
Qed.

Ltac frame_attr :=
  frame;
  try (apply legend_step_attr; solve [ left; discriminate | right; discriminate ]).

(** Takes the first statement off a run that returned: [v] names the value
    it computed, [Hv] the fact that computing it did not raise, [s] the
    state it left and [Hs] what that state is. *)
Tactic Notation "step" hyp(H) "as" ident(v) ident(Hv) ident(s) ident(Hs) :=
  let a := fresh "a" in
  apply bind_ok in H as (a & s & Hs & H);
  first
    [ apply lift_ok in Hs as [Hv Hs]; rename a into v
    | apply assign_ok in Hs as (v & Hv & Hs); clear a
    | apply setattr_ok in Hs ].

Tactic Notation "step" hyp(H) "as" ident(v) ident(Hv) :=
  let s := fresh "s" in
  let Hs := fresh "Hs" in
  step H as v Hv s Hs.

Tactic Notation "step" hyp(H) :=
  let v := fresh "v" in
  let Hv := fresh "Hv" in
  step H as v Hv.

(** ** The active legend *)

Lemma player_populate_fetched E st api_key uid player_name platform player_stats :
  player_fetched E st api_key uid player_name platform player_stats ->
  PlayerStatsCollector.populate_data E st
  = PlayerStatsCollector.extract E player_stats
      (with_log (log st ++ [player_request api_key uid player_name platform]) st).
Proof.
  intros (Hc & Hp & status & Hup).
  rewrite (player_populate_run _ _ _ _ _ _ Hc Hp), bind_unfold, get_json_run, Hup.
  reflexivity.
Qed.

(** C6.  When the fetch returns, [current_legend_br_kills] is the value of
    the first element of the selected legend's detail list, whatever the
    key of that element. *)
Theorem active_legend_kills_positional
    (E : environment) (st st' : state)
    (api_key uid player_name platform player_stats : pyval) :
  player_fetched E st api_key uid player_name platform player_stats ->
  PlayerStatsCollector.populate_data E st = (Ok tt, st') ->
  exists legends selected first rest value,
    getitem player_stats "legends" = Ok legends
    /\ getitem legends "selected" = Ok selected
    /\ getitem selected "data" = Ok (PList (first :: rest))
    /\ getitem first "value" = Ok value
    /\ attrs Player st' !! "current_legend_br_kills" = Some value.
Proof.
  intros Hf H. rewrite (player_populate_fetched _ _ _ _ _ _ _ Hf) in H.
  unfold PlayerStatsCollector.extract in H.
  do 2 step H.
  step H as selected Hsel. apply result_bind_ok in Hsel as (legends & Hl & Hsel).
  do 4 step H.
  do 21 step H.
  step H as value Hvalue s_kills Hkills.
  apply result_bind_ok in Hvalue as (data & Hd & Hvalue).
  apply result_bind_ok in Hvalue as (first & H0 & Hvalue).
  eapply (kept (fun st => attrs Player st !! "current_legend_br_kills")) in H;
    [|frame_attr].
  assert (exists rest, data = PList (first :: rest)) as [rest ->].
  { destruct data as [| | | |t|[|first' rest]|]; simpl in H0; try discriminate.
    - destruct (first_char t); [|discriminate].
      injection H0 as <-. discriminate.
    - injection H0 as ->. eauto. }
  exists legends, selected, first, rest, value.
  repeat split; try assumption.
  rewrite H, Hkills. simpl. by rewrite lookup_insert_eq.
Qed.

(** ** The battle pass *)

(** C10.  When the fetch returns, [battle_pass_level] and
    [battle_pass_history] are the values of [global.battlepass.level] and
    [global.battlepass.history] when those are true as Python tests them,
    and [0] otherwise; [None], [False], [0] and the empty string are all
    replaced by [0]. *)
Theorem battle_pass_or_zero
    (E : environment) (st st' : state)
    (api_key uid player_name platform player_stats : pyval) :
  player_fetched E st api_key uid player_name platform player_stats ->
  PlayerStatsCollector.populate_data E st = (Ok tt, st') ->
  exists glob battlepass level history,
    getitem player_stats "global" = Ok glob
    /\ getitem glob "battlepass" = Ok battlepass
    /\ getitem battlepass "level" = Ok level
    /\ getitem battlepass "history" = Ok history
    /\ attrs Player st' !! "battle_pass_level"
       = Some (if truthy level then level else PInt 0)
    /\ attrs Player st' !! "battle_pass_history"
       = Some (if truthy history then history else PInt 0)
    /\ Forall (fun v => py_or v (PInt 0) = PInt 0)
         [PNone; PBool false; PInt 0; PStr ""].
Proof.
  intros Hf H. rewrite (player_populate_fetched _ _ _ _ _ _ _ Hf) in H.
  unfold PlayerStatsCollector.extract in H.
  step H as glob Hglob.
  do 6 step H.
  do 12 step H.
  step H as lv Hlv s_level Hs_level.
  step H as hs Hhs s_history Hs_history.
  apply result_bind_ok in Hlv as (battlepass & Hbp & Hlv).
  apply result_bind_ok in Hlv as (level & Hlevel & Hlv).
  apply result_bind_ok in Hhs as (battlepass' & Hbp' & Hhs).
  apply result_bind_ok in Hhs as (history & Hhistory & Hhs).
  rewrite Hbp in Hbp'. injection Hbp' as <-.
  injection Hlv as <-. injection Hhs as <-.
  pose proof H as H'.
  eapply (kept (fun st => attrs Player st !! "battle_pass_level")) in H;
    [|frame_attr].
  eapply (kept (fun st => attrs Player st !! "battle_pass_history")) in H';
    [|frame_attr].
  exists glob, battlepass, level, history.
  repeat split; try assumption.
  - rewrite H, Hs_history. simpl. rewrite lookup_insert_ne by discriminate.
    rewrite Hs_level. simpl. by rewrite lookup_insert_eq.
  - rewrite H', Hs_history. simpl. by rewrite lookup_insert_eq.
  - repeat constructor.
Qed.

(** ** The kills of each legend *)

Lemma get_set_eq {V} k (v : V) d : Dict.get k (Dict.set k v d) = Some v.
Proof.
  induction d as [|[k' v'] d IH]; simpl.
  - by rewrite String.eqb_refl.
  - destruct (String.eqb k k') eqn:Ek; simpl.
    + by rewrite String.eqb_refl.
    + by rewrite Ek.
Qed.

Lemma get_set_ne {V} k k' (v : V) d :
  k <> k' -> Dict.get k (Dict.set k' v d) = Dict.get k d.
Proof.
  intros Hne. induction d as [|[k'' v''] d IH]; simpl.
  - apply String.eqb_neq in Hne. by rewrite Hne.
  - destruct (String.eqb k' k'') eqn:Ek; simpl.
    + apply String.eqb_eq in Ek as <-.
      apply String.eqb_neq in Hne. by rewrite Hne.
    + destruct (String.eqb k k''); auto.
Qed.

Lemma keys_set {V} k (v : V) d x :
  x ∈ Dict.keys (Dict.set k v d) <-> x = k \/ x ∈ Dict.keys d.
Proof.
  unfold Dict.keys. induction d as [|[k' v'] d IH]; simpl.
  - rewrite list_elem_of_singleton, elem_of_nil. tauto.
  - destruct (String.eqb k k') eqn:Ek; simpl.
    + apply String.eqb_eq in Ek as <-. rewrite !elem_of_cons. tauto.
    + rewrite !elem_of_cons, IH. tauto.
Qed.

Lemma NoDup_keys_set {V} k (v : V) d :
  NoDup (Dict.keys d) -> NoDup (Dict.keys (Dict.set k v d)).
Proof.
  unfold Dict.keys. induction d as [|[k' v'] d IH]; simpl; intros Hd.
  - apply NoDup_singleton.
  - apply NoDup_cons in Hd as [Hk Hd].
    destruct (String.eqb k k') eqn:Ek; simpl.
    + apply String.eqb_eq in Ek as <-. by apply NoDup_cons.
    + apply NoDup_cons. split; [|auto].
      intros Hin. apply (keys_set k v d k') in Hin as [->|Hin]; [|done].
      by rewrite String.eqb_refl in Ek.
Qed.

Lemma get_None_keys {V} k (d : list (string * V)) :
  k ∉ Dict.keys d -> Dict.get k d = None.
Proof.
  unfold Dict.keys. induction d as [|[k' v'] d IH]; simpl; [done|].
  intros Hk. apply not_elem_of_cons in Hk as [Hne Hk].
  apply String.eqb_neq in Hne. rewrite Hne. auto.
Qed.

(** The kills the program finds in a detail list are the kill count of the
    specification. *)
Lemma first_kills_value data v :
  PlayerStatsCollector.first_kills data = Ok v -> kills_value data v.
Proof.
  unfold kills_value. induction data as [|item data IH]; simpl.
  - intros [= <-]. reflexivity.
  - destruct item as [| | | | | |d]; simpl; try discriminate.
    destruct (Dict.get "key" d) as [k|]; simpl; [|discriminate].
    destruct k as [| | | |k| |]; simpl; try exact IH.
    destruct (String.eqb k "kills"); [|exact IH].
    destruct (Dict.get "value" d); [|discriminate]. by intros [= <-].
Qed.

Lemma kills_value_fun data v v' :
  kills_value data v -> kills_value data v' -> v = v'.
Proof.
  unfold kills_value.
  destruct (List.find kills_entry data) as [[| | | | | |d]|];
    try contradiction; congruence.
Qed.

Lemma kill_value_of_list info data :
  Dict.get "data" info = Some (PList data) ->
  PlayerStatsCollector.kill_value_of (PDict info)
  = PlayerStatsCollector.first_kills data.
Proof.
  intros H. unfold PlayerStatsCollector.kill_value_of. simpl. by rewrite H.
Qed.

(** Kills that are not zero come from a detail list that is a list: the
    keys of a dict and the characters of a string have no key. *)
Lemma kill_value_of_counts legend_info v :
  PlayerStatsCollector.kill_value_of legend_info = Ok v ->
  ne_zero v = true ->
  exists info data,
    legend_info = PDict info
    /\ Dict.get "data" info = Some (PList data)
    /\ kills_value data v.
Proof.
  unfold PlayerStatsCollector.kill_value_of.
  destruct legend_info as [| | | | | |info]; simpl; try discriminate.
  destruct (Dict.get "data" info) as [x|] eqn:Hd; simpl; [|discriminate].
  destruct x as [| | | |s|l|d]; simpl; try discriminate.
  - destruct s; simpl; [|discriminate]. by intros [= <-].
  - intros H _. exists info, l. auto using first_kills_value.
  - destruct d as [|[k x] d]; simpl; [|discriminate]. by intros [= <-].
Qed.

(** One turn of the loop that returns: the dict is left alone or gets the
    legend's kills. *)
Lemma legend_step_ok name legend_info st st' acc :
  attrs Player st !! kills_attr = Some (PDict acc) ->
  PlayerStatsCollector.legend_step (name, legend_info) st = (Ok tt, st') ->
  exists acc',
    attrs Player st' !! kills_attr = Some (PDict acc')
    /\ ((acc' = acc /\ forall v, ~ counted [(name, legend_info)] name v)
        \/ (exists v, acc' = Dict.set name v acc
                      /\ forall v', counted [(name, legend_info)] name v' <-> v' = v)).
Proof.
  intros Ha H. unfold PlayerStatsCollector.legend_step in H.
  assert (Hget : Dict.get name [(name, legend_info)] = Some legend_info)
    by (simpl; by rewrite String.eqb_refl).
  destruct (String.eqb name "Global") eqn:Eg.
  { injection H as <-. exists acc. split; [done|]. left. split; [done|].
    intros v [Hne _]. apply String.eqb_eq in Eg. done. }
  apply String.eqb_neq in Eg.
  step H as has_data Hdata s1 Hs1. subst s1.
  destruct has_data; simpl in H.
  2:{ injection H as <-. exists acc. split; [done|]. left. split; [done|].
      intros v (_ & info & data & Hi & Hd & _).
      rewrite Hget in Hi. injection Hi as ->.
      simpl in Hdata. unfold Dict.mem in Hdata. rewrite Hd in Hdata.
      discriminate. }
  step H as kill_value Hkv s1 Hs1. subst s1.
  assert (Hsame : forall v, counted [(name, legend_info)] name v -> v = kill_value).
  { intros v (_ & info & data & Hi & Hd & Hk & _).
    rewrite Hget in Hi. injection Hi as ->.
    rewrite (kill_value_of_list _ _ Hd) in Hkv.
    exact (kills_value_fun _ _ _ Hk (first_kills_value _ _ Hkv)). }
  destruct (ne_zero kill_value) eqn:Ez.
  2:{ injection H as <-. exists acc. split; [done|]. left. split; [done|].
      intros v Hc. pose proof (Hsame v Hc) as ->.
      destruct Hc as (_ & info & data & _ & _ & _ & Hz). congruence. }
  fold kills_attr in H. rewrite (run_getattr _ _ _ _ _ Ha) in H.
  apply assign_ok in H as (d & Hd & ->). injection Hd as <-.
  exists (Dict.set name kill_value acc). split.
  - simpl. by rewrite lookup_insert_eq.
  - right. exists kill_value. split; [done|]. intros v'. split.
    + apply Hsame.
    + intros ->. split; [done|].
      destruct (kill_value_of_counts _ _ Hkv Ez) as (info & data & -> & Hd & Hk).
      exists info, data. done.
Qed.

Lemma counted_cons name legend_info legends k v :
  name ∉ Dict.keys legends ->
  counted ((name, legend_info) :: legends) k v
  <-> (k = name /\ counted [(name, legend_info)] name v)
      \/ (k <> name /\ counted legends k v).
Proof.
  intros Hk. unfold counted. simpl.
  destruct (String.eqb k name) eqn:Ek.
  - apply String.eqb_eq in Ek as ->. rewrite String.eqb_refl. split.
    + intros H. left. done.
    + intros [[_ H]|[? _]]; done.
  - apply String.eqb_neq in Ek. split.
    + intros H. right. done.
    + intros [[? _]|[_ H]]; done.
Qed.

(** The whole loop, over a collection in which each legend appears once. *)
Lemma legends_loop_ok legends :
  forall st st' acc,
    NoDup (Dict.keys legends) ->
    NoDup (Dict.keys acc) ->
    (forall k, k ∈ Dict.keys legends -> Dict.get k acc = None) ->
    attrs Player st !! kills_attr = Some (PDict acc) ->
    for_each legends PlayerStatsCollector.legend_step st = (Ok tt, st') ->
    exists m,
      attrs Player st' !! kills_attr = Some (PDict m)
      /\ NoDup (Dict.keys m)
      /\ forall k v,
           Dict.get k m = Some v <-> Dict.get k acc = Some v \/ counted legends k v.
Proof.
  induction legends as [|[name legend_info] legends IH];
    intros st st' acc Hl Hacc Hfresh Ha H.
  - injection H as <-. exists acc. split; [done|]. split; [done|].
    intros k v. split; [auto|]. intros [?|(_ & info & data & ? & _)]; done.
  - simpl in H. apply bind_ok in H as ([] & s1 & Hstep & H).
    unfold Dict.keys in Hl. simpl in Hl. apply NoDup_cons in Hl as [Hname Hl].
    destruct (legend_step_ok _ _ _ _ _ Ha Hstep) as (acc' & Ha' & Hacc').
    assert (Hnone : Dict.get name acc = None)
      by (apply Hfresh; unfold Dict.keys; simpl; apply list_elem_of_here).
    assert (Hother : forall k, k ∈ Dict.keys legends -> k <> name)
      by (intros k Hk ->; done).
    destruct Hacc' as [[-> Hnot]|(v0 & -> & Hv0)].
    + destruct (IH s1 st' acc Hl Hacc) as (m & Hm & Hnd & Hspec); try done.
      { intros k Hk. apply Hfresh. unfold Dict.keys. simpl.
        by apply list_elem_of_further. }
      exists m. split; [done|]. split; [done|]. intros k v.
      rewrite Hspec, (counted_cons _ _ _ _ _ Hname). split.
      * intros [?|Hc]; [auto|]. right. right. split; [|done].
        intros ->. destruct Hc as (_ & info & data & Hi & _).
        rewrite get_None_keys in Hi; done.
      * intros [?|[[_ Hc]|[_ Hc]]]; [auto| |auto]. by apply Hnot in Hc.
    + destruct (IH s1 st' (Dict.set name v0 acc) Hl) as (m & Hm & Hnd & Hspec);
        try done.
      { by apply NoDup_keys_set. }
      { intros k Hk. rewrite get_set_ne by auto. apply Hfresh.
        unfold Dict.keys. simpl. by apply list_elem_of_further. }
      exists m. split; [done|]. split; [done|]. intros k v.
      rewrite Hspec, (counted_cons _ _ _ _ _ Hname).
      destruct (decide (k = name)) as [->|Hne].
      * rewrite get_set_eq, Hnone, Hv0. split.
        -- intros [[= <-]|Hc]; [by auto|].
           destruct Hc as (_ & info & data & Hi & _).
           rewrite get_None_keys in Hi; done.
        -- intros [?|[[_ ->]|[? _]]]; done || auto.
      * rewrite get_set_ne by done. split.
        -- intros [?|?]; auto.
        -- intros [?|[[? _]|[_ ?]]]; done || auto.
Qed.

(** Whatever the collection, the loop leaves a dict without repeated
    keys. *)
Lemma legends_loop_dict legends :
  forall st st' acc,
    NoDup (Dict.keys acc) ->
    attrs Player st !! kills_attr = Some (PDict acc) ->
    for_each legends PlayerStatsCollector.legend_step st = (Ok tt, st') ->
    exists m, attrs Player st' !! kills_attr = Some (PDict m) /\ NoDup (Dict.keys m).
Proof.
  induction legends as [|[name legend_info] legends IH]; intros st st' acc Hacc Ha H.
  - injection H as <-. eauto.
  - simpl in H. apply bind_ok in H as ([] & s1 & Hstep & H).
    destruct (legend_step_ok _ _ _ _ _ Ha Hstep) as (acc' & Ha' & Hacc').
    apply (IH s1 st' acc'); [|done|done].
    destruct Hacc' as [[-> _]|(v0 & -> & _)]; [done|by apply NoDup_keys_set].
Qed.

(** C1.  When the fetch returns, [all_legends_kills] is a dict without
    repeated keys which, for a collection [legends.all] that names each
    legend once, holds exactly the legends other than ["Global"] that have a
    detail list and whose kills, found by key with [0] for want of an entry,
    are not zero, each with those kills. *)
Theorem legend_kills_mapping
    (E : environment) (st st' : state)
    (api_key uid player_name platform player_stats : pyval) :
  player_fetched E st api_key uid player_name platform player_stats ->
  PlayerStatsCollector.populate_data E st = (Ok tt, st') ->
  exists legends all_legends mapping,
    getitem player_stats "legends" = Ok legends
    /\ getitem legends "all" = Ok (PDict all_legends)
    /\ attrs Player st' !! "all_legends_kills" = Some (PDict mapping)
    /\ NoDup (Dict.keys mapping)
    /\ (NoDup (Dict.keys all_legends) ->
        forall name v,
          Dict.get name mapping = Some v <-> counted all_legends name v).
Proof.
  intros Hf H. rewrite (player_populate_fetched _ _ _ _ _ _ _ Hf) in H.
  unfold PlayerStatsCollector.extract in H.
  do 3 step H.
  step H as all_ Hall. apply result_bind_ok in Hall as (legends & Hl & Hall).
  do 3 step H.
  do 22 step H.
  step H as u Hu s_empty Hs_empty.
  step H as all_legends Hitems s_items Hs_items. subst s_items.
  destruct all_ as [| | | | | |d]; try discriminate. injection Hitems as ->.
  apply bind_ok in H as ([] & s_loop & Hloop & H).
  eapply (kept (fun st => attrs Player st !! "all_legends_kills")) in H;
    [|frame_attr].
  assert (Hempty : attrs Player s_empty !! kills_attr = Some (PDict []))
    by (rewrite Hs_empty; simpl; by rewrite lookup_insert_eq).
  destruct (legends_loop_dict all_legends s_empty s_loop [] (NoDup_nil_2) Hempty Hloop)
    as (m & Hm & Hndm).
  exists legends, all_legends, m. rewrite H.
  do 4 (split; [done|]).
  intros Hnd name kills.
  destruct (legends_loop_ok all_legends s_empty s_loop [] Hnd (NoDup_nil_2))
    as (m' & Hm' & _ & Hspec); try done.
  rewrite Hm in Hm'. injection Hm' as <-.
  rewrite Hspec. split; [|auto]. intros [?|?]; done.
Qed.

(** ** Fetching twice *)

Lemma config_lookup o s1 s2 name :
  is_config name = true -> config o s1 = config o s2 ->
  attrs o s1 !! name = attrs o s2 !! name.
Proof.
  unfold is_config, config. simpl. intros Hn [= H1 H2 H3 H4].
  repeat (apply orb_prop in Hn as [Hn|Hn];
          [apply String.eqb_eq in Hn as ->; assumption|]).
  discriminate.
Qed.

Lemma config_overlay o s s' W :
  safe W -> attrs o s' = W ∪ attrs o s -> config o s' = config o s.
Proof.
  intros HW Hs. unfold config. apply map_ext_in. intros name Hin.
  rewrite Hs. apply lookup_union_r, HW.
  unfold is_config. apply existsb_exists. exists name.
  split; [assumption|apply String.eqb_refl].
Qed.

Lemma safe_empty : safe ∅.
Proof. intros name _. apply lookup_empty. Qed.

Lemma safe_singleton name v : is_config name = false -> safe {[name := v]}.
Proof.
  intros Hn name' Hn'. apply lookup_singleton_ne. intros ->. congruence.
Qed.

Lemma safe_union W1 W2 : safe W1 -> safe W2 -> safe (W1 ∪ W2).
Proof.
  intros H1 H2 name Hn. apply lookup_union_None. split; [apply H1|apply H2]; done.
Qed.

Lemma with_attrs_same o st : with_attrs o (attrs o st) st = st.
Proof. destruct o, st; reflexivity. Qed.

Lemma with_attrs_twice o a b st : with_attrs o a (with_attrs o b st) = with_attrs o a st.
Proof. destruct o; reflexivity. Qed.

Section Replay.

Variable E : environment.

(** The upstream answers a request the same way whatever came before. *)
Hypothesis stateless : forall h h' r, upstream E h r = upstream E h' r.

Lemma replay_ext o {A} (m m' : M A) :
  (forall s, m s = m' s) -> replay o m' -> replay o m.
Proof. intros Heq Hm s1 s2 Hc. rewrite !Heq. auto. Qed.

Lemma replay_lift o {A} (r : result A) : replay o (lift r).
Proof.
  intros s1 s2 _. split; [reflexivity|]. exists ∅.
  split; [apply safe_empty|]. simpl. by rewrite !(left_id_L ∅ (∪)).
Qed.

Lemma replay_ret o {A} (a : A) : replay o (mret a).
Proof. apply (replay_lift o (Ok a)). Qed.

Lemma replay_raise o {A} e : replay o (@raise A e).
Proof. apply replay_lift. Qed.

Lemma replay_json o resp : replay o (json resp).
Proof. apply replay_lift. Qed.

Lemma replay_getattr o name : is_config name = true -> replay o (getattr o name).
Proof.
  intros Hn s1 s2 Hc. unfold getattr.
  rewrite (config_lookup _ _ _ _ Hn Hc).
  split.
  - destruct (attrs o s2 !! name); reflexivity.
  - exists ∅. split; [apply safe_empty|].
    rewrite !(left_id_L ∅ (∪)).
    destruct (attrs o s2 !! name); simpl; auto.
Qed.

Lemma replay_setattr o name v : is_config name = false -> replay o (setattr o name v).
Proof.
  intros Hn s1 s2 _. split; [reflexivity|]. exists {[name := v]}.
  split; [by apply safe_singleton|]. simpl.
  rewrite !attrs_with_attrs, !insert_union_singleton_l. auto.
Qed.

Lemma replay_requests_get o r : replay o (requests_get E r).
Proof.
  intros s1 s2 _. unfold requests_get.
  rewrite (stateless (log s1) (log s2) r).
  split.
  - destruct (upstream E (log s2) r); reflexivity.
  - exists ∅. split; [apply safe_empty|].
    rewrite !(left_id_L ∅ (∪)).
    destruct (upstream E (log s2) r); simpl; rewrite !attrs_with_log; auto.
Qed.

Lemma replay_bind o {A B} (m : M A) (f : A -> M B) :
  replay o m -> (forall a, replay o (f a)) -> replay o (m ≫= f).
Proof.
  intros Hm Hf s1 s2 Hc. rewrite !bind_unfold.
  destruct (Hm s1 s2 Hc) as (Hr & W & HW & H1 & H2).
  destruct (m s1) as [[a|e] t1], (m s2) as [[a'|e'] t2]; simpl in *;
    try discriminate.
  - injection Hr as <-.
    destruct (Hf a t1 t2) as (Hr' & W' & HW' & H1' & H2').
    { rewrite (config_overlay _ _ _ _ HW H1), (config_overlay _ _ _ _ HW H2). done. }
    split; [done|]. exists (W' ∪ W). split; [by apply safe_union|].
    rewrite H1', H2', H1, H2, !(assoc_L (∪)). auto.
  - injection Hr as ->. split; [reflexivity|]. exists W. auto.
Qed.

Lemma replay_lift_bind o {A B} (r : result A) (f : A -> M B) :
  (forall a, r = Ok a -> replay o (f a)) -> replay o (lift r ≫= f).
Proof.
  intros Hf. destruct r as [a|e].
  - apply (replay_ext _ _ (f a)); [reflexivity|auto].
  - apply (replay_ext _ _ (raise e)); [reflexivity|apply replay_raise].
Qed.

End Replay.

Lemma legend_step_run legend d st :
  attrs Player st !! kills_attr = Some d ->
  PlayerStatsCollector.legend_step legend st =
  match step_dict legend d with
  | Ok d' => (Ok tt, with_attrs Player (<[kills_attr := d']> (attrs Player st)) st)
  | Raise e => (Raise e, st)
  end.
Proof.
  intros Hd. destruct legend as [name info].
  assert (Hsame : (Ok tt, st)
                  = (Ok tt, with_attrs Player (<[kills_attr := d]> (attrs Player st)) st)).
  { by rewrite (insert_id _ _ _ Hd), with_attrs_same. }
  unfold PlayerStatsCollector.legend_step, step_dict, kills_attr in *.
  unfold mbind, M_bind, result_bind, bind, lift, assign, getattr, setattr, ret.
  destruct (String.eqb name "Global"); [exact Hsame|].
  destruct (contains "data" info) as [[]|e]; [|exact Hsame|reflexivity].
  destruct (PlayerStatsCollector.kill_value_of info) as [kv|e]; [|reflexivity].
  cbn [negb]. cbv beta iota. destruct (ne_zero kv); [|exact Hsame].
  rewrite Hd. destruct (setitem d name kv); reflexivity.
Qed.

Lemma replay_legends legends :
  forall d,
    replay Player
      (setattr Player kills_attr d ≫= fun _ =>
         for_each legends PlayerStatsCollector.legend_step).
Proof.
  induction legends as [|legend legends IH]; intros d.
  - apply replay_bind; [by apply replay_setattr|]. intros. apply replay_ret.
  - assert (Hd : forall st,
               attrs Player (with_attrs Player (<[kills_attr := d]> (attrs Player st)) st)
                 !! kills_attr = Some d)
      by (intros st; simpl; by rewrite lookup_insert_eq).
    destruct (step_dict legend d) as [d'|e] eqn:Hstep.
    + apply (replay_ext _ _ (setattr Player kills_attr d' ≫= fun _ =>
                               for_each legends PlayerStatsCollector.legend_step));
        [|apply IH].
      intros st. rewrite !run_setattr. cbn [for_each]. rewrite bind_unfold.
      rewrite (legend_step_run legend d _ (Hd st)), Hstep.
      by rewrite with_attrs_twice, attrs_with_attrs, insert_insert_eq.
    + apply (replay_ext _ _ (setattr Player kills_attr d ≫= fun _ => raise e)).
      * intros st. rewrite !run_setattr. cbn [for_each]. rewrite bind_unfold.
        by rewrite (legend_step_run legend d _ (Hd st)), Hstep.
      * apply replay_bind; [by apply replay_setattr|]. intros. apply replay_raise.
Qed.

Lemma replay_kills_block r (rest : M unit) :
  replay Player rest ->
  replay Player
    (setattr Player "all_legends_kills" (PDict []) ≫= fun _ =>
       lift r ≫= fun legends =>
         for_each legends PlayerStatsCollector.legend_step ≫= fun _ => rest).
Proof.
  intros Hrest. destruct r as [legends|e].
  - apply (replay_ext _ _
             ((setattr Player kills_attr (PDict []) ≫= fun _ =>
                 for_each legends PlayerStatsCollector.legend_step)
                ≫= fun _ => rest)).
    + intros st. reflexivity.
    + apply replay_bind; [apply replay_legends|auto].
  - apply (replay_ext _ _ (setattr Player kills_attr (PDict []) ≫= fun _ => raise e)).
    + intros st. reflexivity.
    + apply replay_bind; [by apply replay_setattr|]. intros. apply replay_raise.
Qed.

Section ReplayFetch.

Variable E : environment.
Hypothesis stateless : forall h h' r, upstream E h r = upstream E h' r.

Ltac replay_tac :=
  repeat first
    [ apply replay_ret
    | apply replay_lift
    | apply replay_raise
    | apply replay_json
    | apply replay_requests_get; assumption
    | apply replay_getattr; reflexivity
    | apply replay_setattr; reflexivity
    | apply replay_kills_block
    | apply replay_lift_bind; intros ? ?
    | apply replay_bind; [|intros ?]
    | match goal with
      | |- replay _ (assign _ _ _) => unfold assign
      | |- replay _ (if ?b then _ else _) => destruct b
      end ].

Lemma replay_player_populate : replay Player (PlayerStatsCollector.populate_data E).
Proof.
  unfold PlayerStatsCollector.populate_data, PlayerStatsCollector.get_player_stats,
    PlayerStatsCollector.extract.
  replay_tac.
Qed.

Lemma replay_map_populate : replay Map (MapDataCollector.populate_data E).
Proof.
  unfold MapDataCollector.populate_data, MapDataCollector.get_map_rotation,
    MapDataCollector.extract.
  replay_tac.
Qed.

End ReplayFetch.

(** ** Writing the instruments twice *)

Lemma lookup_run_writes W :
  forall i k,
    run_writes W i !! k =
    match last_put W k with
    | Some x => Some x
    | None =>
        match i !! k with
        | Some y => Some y
        | None => first_absent W k
        end
    end.
Proof.
  induction W as [|w W IH]; intros i k; simpl.
  - destruct (i !! k); reflexivity.
  - unfold run_writes in *. rewrite IH.
    destruct (last_put W k); [reflexivity|].
    destruct w as [k' x|k' x]; simpl.
    + rewrite lookup_insert. destruct (decide (k' = k)); reflexivity.
    + destruct (decide (k' = k)) as [->|Hne].
      * destruct (i !! k) eqn:Hi; [by rewrite Hi|]. by rewrite lookup_insert_eq.
      * destruct (i !! k'); [reflexivity|]. by rewrite lookup_insert_ne.
Qed.

(** Writing the same things again changes nothing. *)
Lemma run_writes_twice W i : run_writes W (run_writes W i) = run_writes W i.
Proof.
  apply map_eq. intros k. rewrite (lookup_run_writes W (run_writes W i)).
  rewrite (lookup_run_writes W i).
  destruct (last_put W k); [reflexivity|].
  destruct (i !! k); [reflexivity|].
  destruct (first_absent W k); reflexivity.
Qed.

Lemma run_writes_app W1 W2 i :
  run_writes (W1 ++ W2)%list i = run_writes W2 (run_writes W1 i).
Proof. apply foldl_app. Qed.

Lemma scripted_lift {A} (r : result A) : scripted (lift r).
Proof. intros s. exists r, []. intros s' Hs. repeat split; apply Hs. Qed.

Lemma scripted_ret {A} (a : A) : scripted (mret a).
Proof. apply (scripted_lift (Ok a)). Qed.

Lemma scripted_raise {A} e : scripted (@raise A e).
Proof. apply scripted_lift. Qed.

Lemma scripted_getattr o name : scripted (getattr o name).
Proof.
  intros s.
  exists (match attrs o s !! name with Some v => Ok v | None => Raise AttributeError end), [].
  intros s' [Hp Hm]. unfold getattr.
  assert (attrs o s' = attrs o s) as -> by (destruct o; assumption).
  destruct (attrs o s !! name); simpl;
    (split; [reflexivity|]); (split; [reflexivity|]); split; assumption.
Qed.

Lemma scripted_store name ls x : scripted (store name ls x).
Proof.
  intros s. exists (Ok tt), [Put (name, ls) x]. intros s' [Hp Hm].
  split; [reflexivity|]. split; [reflexivity|]. split; assumption.
Qed.

Lemma scripted_labels name label : scripted (labels name label).
Proof.
  intros s. exists (Ok tt), [PutIfAbsent (name, [label]) (Gauge (S754_zero false))].
  intros s' [Hp Hm]. unfold labels. simpl.
  destruct (instruments s' !! (name, [label])); simpl;
    (split; [reflexivity|]); (split; [reflexivity|]); split; assumption.
Qed.

Lemma scripted_bind {A B} (m : M A) (f : A -> M B) :
  scripted m -> (forall a, scripted (f a)) -> scripted (m ≫= f).
Proof.
  intros Hm Hf s. destruct (Hm s) as (r & W & HW).
  destruct r as [a|e].
  - destruct (Hf a s) as (r' & W' & HW'). exists r', (W ++ W')%list.
    intros s' Hs. rewrite bind_unfold.
    destruct (HW s' Hs) as (Hr & Hi & Ha).
    destruct (m s') as [[a'|e'] t]; simpl in *; [|discriminate].
    injection Hr as ->.
    destruct (HW' t Ha) as (Hr' & Hi' & Ha').
    rewrite run_writes_app, <- Hi. auto.
  - exists (Raise e), W. intros s' Hs. rewrite bind_unfold.
    destruct (HW s' Hs) as (Hr & Hi & Ha).
    destruct (m s') as [[a'|e'] t]; simpl in *; [discriminate|].
    injection Hr as ->. auto.
Qed.

Lemma scripted_for_each {A} (l : list A) (body : A -> M unit) :
  (forall x, scripted (body x)) -> scripted (for_each l body).
Proof.
  intros Hb. induction l as [|x l IH]; simpl.
  - apply scripted_ret.
  - apply scripted_bind; auto.
Qed.

Ltac script :=
  repeat first
    [ apply scripted_ret
    | apply scripted_lift
    | apply scripted_raise
    | apply scripted_getattr
    | apply scripted_store
    | apply scripted_labels
    | apply scripted_for_each; intros ?
    | apply scripted_bind; [|intros ?]
    | match goal with
      | |- scripted (if ?b then _ else _) => destruct b
      | |- scripted (let (_, _) := ?p in _) => destruct p
      end ].

Lemma scripted_project E : scripted (ApexCollector.project E).
Proof.
  unfold ApexCollector.project, ApexCollector.legend_kills_step, info, gauge_set,
    child_set.
  script.
Qed.

Lemma setattr_other_attrs o o' name v :
  o <> o' -> preserves (attrs o) (setattr o' name v).
Proof. intros H st. destruct o, o'; simpl; congruence. Qed.

Lemma player_populate_map_attrs E :
  preserves (attrs Map) (PlayerStatsCollector.populate_data E).
Proof.
  unfold PlayerStatsCollector.populate_data, PlayerStatsCollector.get_player_stats,
    PlayerStatsCollector.extract, PlayerStatsCollector.legend_step.
  repeat (frame; try (apply setattr_other_attrs; discriminate)).
Qed.

Lemma map_populate_player_attrs E :
  preserves (attrs Player) (MapDataCollector.populate_data E).
Proof.
  unfold MapDataCollector.populate_data, MapDataCollector.get_map_rotation,
    MapDataCollector.extract.
  repeat (frame; try (apply setattr_other_attrs; discriminate)).
Qed.

Lemma config_attrs o s s' : attrs o s = attrs o s' -> config o s = config o s'.
Proof. unfold config. intros ->. reflexivity. Qed.

(** A fetch run again on the attributes it left returns or raises as it did
    and leaves the same attributes. *)
Lemma refetch o (m : M unit) st s :
  replay o m ->
  attrs o s = attrs o (snd (m st)) ->
  fst (m s) = fst (m st) /\ attrs o (snd (m s)) = attrs o (snd (m st)).
Proof.
  intros Hm Hs.
  destruct (Hm st st eq_refl) as (_ & W0 & HW0 & H0 & _).
  assert (Hc : config o st = config o s).
  { rewrite (config_attrs _ _ _ Hs). symmetry. by apply (config_overlay _ _ _ W0). }
  destruct (Hm st s Hc) as (Hr & W & HW & H1 & H2).
  split; [done|]. rewrite H2, Hs, H1, (assoc_L (∪)), (idemp_L (∪)). done.
Qed.

(** ** Two ticks on the same documents *)

(** C8.  With an upstream that answers a request the same way each time,
    a second call of [collect] leaves every instrument as the first call
    left it. *)
Theorem collect_idempotent (E : environment) (st : state) :
  (forall h h' r, upstream E h r = upstream E h' r) ->
  instruments (snd (ApexCollector.collect E (snd (ApexCollector.collect E st))))
  = instruments (snd (ApexCollector.collect E st)).
Proof.
  intros stateless.
  pose proof (replay_player_populate E stateless) as RP.
  pose proof (replay_map_populate E stateless) as RM.
  set (P := PlayerStatsCollector.populate_data E) in *.
  set (Mp := MapDataCollector.populate_data E) in *.
  assert (HPi : preserves instruments P) by apply player_populate_instruments.
  assert (HMi : preserves instruments Mp) by apply map_populate_instruments.
  assert (HPm : preserves (attrs Map) P) by apply player_populate_map_attrs.
  assert (HMp : preserves (attrs Player) Mp) by apply map_populate_player_attrs.
  assert (Hcollect : forall s,
            ApexCollector.collect E s =
            match P s with
            | (Ok _, s1) =>
                match Mp s1 with
                | (Ok _, s2) => ApexCollector.project E s2
                | (Raise e, s2) => (Raise e, s2)
                end
            | (Raise e, s1) => (Raise e, s1)
            end).
  { intros s. unfold ApexCollector.collect. fold P Mp. rewrite bind_unfold.
    destruct (P s) as [[[]|e] s1]; [|reflexivity]. rewrite bind_unfold.
    destruct (Mp s1) as [[[]|e] s2]; reflexivity. }
  rewrite (Hcollect st).
  destruct (P st) as [[[]|e1] s1] eqn:E1.
  - destruct (Mp s1) as [[[]|e2] s2] eqn:E2.
    + (* both fetches return: the instruments are written *)
      destruct (scripted_project E s2) as (r & W & HW).
      destruct (HW s2 (conj eq_refl eq_refl)) as (_ & Hi3 & Hp3 & Hm3).
      set (s3 := snd (ApexCollector.project E s2)) in *.
      rewrite (Hcollect s3).
      destruct (refetch Player P st s3 RP) as (Hr4 & Ha4).
      { rewrite E1. cbn [fst snd]. rewrite Hp3.
        pose proof (HMp s1) as H. rewrite E2 in H. exact H. }
      pose proof (HPi s3) as Hi4. pose proof (HPm s3) as Hm4.
      rewrite E1 in Hr4, Ha4. cbn [fst snd] in Hr4, Ha4.
      destruct (P s3) as [[[]|e4] s4]; cbn [fst snd] in *; [|discriminate].
      destruct (refetch Map Mp s1 s4 RM) as (Hr5 & Ha5).
      { rewrite E2. cbn [fst snd]. congruence. }
      pose proof (HMi s4) as Hi5. pose proof (HMp s4) as Hp5.
      rewrite E2 in Hr5, Ha5. cbn [fst snd] in Hr5, Ha5.
      destruct (Mp s4) as [[[]|e5] s5]; cbn [fst snd] in *; [|discriminate].
      assert (Hsame : same_attrs s2 s5).
      { split; [|assumption]. rewrite Hp5, Ha4.
        pose proof (HMp s1) as H. rewrite E2 in H. symmetry. exact H. }
      destruct (HW s5 Hsame) as (_ & Hi6 & _).
      rewrite Hi6, Hi5, Hi4, Hi3. apply run_writes_twice.
    + (* the map fetch raises *)
      cbn [fst snd]. rewrite (Hcollect s2).
      destruct (refetch Player P st s2 RP) as (Hr4 & Ha4).
      { rewrite E1. cbn [fst snd]. pose proof (HMp s1) as H. rewrite E2 in H. exact H. }
      pose proof (HPi s2) as Hi4. pose proof (HPm s2) as Hm4.
      rewrite E1 in Hr4, Ha4. cbn [fst snd] in Hr4, Ha4.
      destruct (P s2) as [[[]|e4] s4]; cbn [fst snd] in *; [|discriminate].
      destruct (refetch Map Mp s1 s4 RM) as (Hr5 & Ha5).
      { rewrite E2. cbn [fst snd]. assumption. }
      pose proof (HMi s4) as Hi5.
      rewrite E2 in Hr5. cbn [fst snd] in Hr5.
      destruct (Mp s4) as [[[]|e5] s5]; cbn [fst snd] in *; [discriminate|].
      congruence.
  - (* the player fetch raises *)
    cbn [fst snd]. rewrite (Hcollect s1).
    destruct (refetch Player P st s1 RP) as (Hr4 & _).
    { rewrite E1. reflexivity. }
    pose proof (HPi s1) as Hi4.
    rewrite E1 in Hr4. cbn [fst snd] in Hr4.
    destruct (P s1) as [[[]|e4] s4]; cbn [fst snd] in *; [discriminate|].
    assumption.
Qed.

(** ** The exceptions of a fetch *)

Section Failures.

Context (P : exn -> Prop).

Lemma fails_ok {A} (a : A) : fails_in P (Ok a).
Proof. intros e. discriminate. Qed.

Lemma fails_bind {A B} (r : result A) (f : A -> result B) :
  fails_in P r -> (forall a, fails_in P (f a)) -> fails_in P (r ≫= f).
Proof.
  intros Hr Hf e. destruct r as [a|e']; simpl.
  - exact (Hf a e).
  - intros [= <-]. by apply Hr.
Qed.

Lemma fails_getitem v k : P KeyError -> P TypeError -> fails_in P (getitem v k).
Proof.
  intros HK HT e. destruct v; simpl; try (intros [= <-]; assumption).
  destruct (Dict.get k d); [discriminate|]. intros [= <-]. assumption.
Qed.

Lemma fails_getitem0 v :
  P KeyError -> P TypeError -> P IndexError -> fails_in P (getitem0 v).
Proof.
  intros HK HT HI e. destruct v as [| | | |s|l|d]; simpl;
    try (intros [= <-]; assumption).
  - destruct (first_char s); [discriminate|]. intros [= <-]. assumption.
  - destruct l; [|discriminate]. intros [= <-]. assumption.
Qed.

Lemma fails_contains s v : P TypeError -> fails_in P (contains s v).
Proof. intros HT e. destruct v; simpl; try discriminate; intros [= <-]; assumption. Qed.

Lemma fails_iterate v : P TypeError -> fails_in P (iterate v).
Proof. intros HT e. destruct v; simpl; try discriminate; intros [= <-]; assumption. Qed.

Lemma fails_items v : P AttributeError -> fails_in P (items v).
Proof. intros HA e. destruct v; simpl; try discriminate; intros [= <-]; assumption. Qed.

Lemma fails_setitem d k v : P TypeError -> fails_in P (setitem d k v).
Proof. intros HT e. destruct d; simpl; try discriminate; intros [= <-]; assumption. Qed.

Lemma fails_float_of_int z : P OverflowError -> fails_in P (float_of_int z).
Proof.
  intros HO e. unfold float_of_int.
  destruct (binary64_of_Z z); try discriminate. intros [= <-]. assumption.
Qed.

Lemma fails_py_float E v :
  P TypeError -> P ValueError -> P OverflowError -> fails_in P (py_float E v).
Proof.
  intros HT HV HO. destruct v; simpl;
    try (intros e [= <-]; assumption);
    try (apply fails_float_of_int; assumption).
  intros e. destruct (float_of_str E s); [discriminate|]. intros [= <-]. assumption.
Qed.

Lemma fails_first_kills l :
  P KeyError -> P TypeError -> fails_in P (PlayerStatsCollector.first_kills l).
Proof.
  intros HK HT. induction l as [|item l IH]; simpl.
  - apply fails_ok.
  - apply fails_bind; [by apply fails_getitem|].
    intros key. destruct (eq_str key "kills"); [by apply fails_getitem|done].
Qed.

Lemma fails_kill_value_of v :
  P KeyError -> P TypeError -> fails_in P (PlayerStatsCollector.kill_value_of v).
Proof.
  intros HK HT. unfold PlayerStatsCollector.kill_value_of.
  apply fails_bind; [by apply fails_getitem|]. intros data.
  apply fails_bind; [by apply fails_iterate|]. intros l.
  by apply fails_first_kills.
Qed.

Lemma raises_only_lift {A} (r : result A) : fails_in P r -> raises_only P (lift r).
Proof. intros Hr st e. apply Hr. Qed.

Lemma raises_only_ret {A} (a : A) : raises_only P (mret a).
Proof. intros st e. discriminate. Qed.

Lemma raises_only_setattr o name v : raises_only P (setattr o name v).
Proof. intros st e. discriminate. Qed.

Lemma raises_only_getattr o name : P AttributeError -> raises_only P (getattr o name).
Proof.
  intros HA st e. unfold getattr. destruct (attrs o st !! name); [discriminate|].
  intros [= <-]. assumption.
Qed.

Lemma raises_only_bind {A B} (m : M A) (f : A -> M B) :
  raises_only P m -> (forall a, raises_only P (f a)) -> raises_only P (m ≫= f).
Proof.
  intros Hm Hf st e. rewrite bind_unfold. specialize (Hm st).
  destruct (m st) as [[a|e'] s]; simpl in *.
  - apply Hf.
  - intros [= <-]. by apply Hm.
Qed.

Lemma raises_only_for_each {A} (l : list A) (body : A -> M unit) :
  (forall x, raises_only P (body x)) -> raises_only P (for_each l body).
Proof.
  intros Hb. induction l as [|x l IH]; simpl.
  - apply raises_only_ret.
  - apply raises_only_bind; auto.
Qed.

End Failures.

(** Goes through a statement; [reflexivity] settles which exceptions are
    allowed. *)
Ltac failures :=
  repeat first
    [ apply raises_only_ret
    | apply raises_only_setattr
    | apply raises_only_getattr; reflexivity
    | apply raises_only_for_each; intros ?
    | apply raises_only_bind; [|intros ?]
    | apply raises_only_lift
    | apply fails_ok
    | apply fails_kill_value_of; reflexivity
    | apply fails_first_kills; reflexivity
    | apply fails_iterate; reflexivity
    | apply fails_bind; [|intros ?]
    | apply fails_getitem; reflexivity
    | apply fails_getitem0; reflexivity
    | apply fails_contains; reflexivity
    | apply fails_items; reflexivity
    | apply fails_setitem; reflexivity
    | apply fails_py_float; reflexivity
    | match goal with
      | |- raises_only _ (assign _ _ _) => unfold assign
      | |- raises_only _ (if ?b then _ else _) => destruct b
      | |- raises_only _ (let (_, _) := ?p in _) => destruct p
      end ].


Lemma player_extract_failures E doc :
  raises_only (fun e => is_malformed e = true) (PlayerStatsCollector.extract E doc).
Proof.
  unfold PlayerStatsCollector.extract, PlayerStatsCollector.legend_step. failures.
Qed.

Lemma run_fetch (E : environment) (r : request) (extract : pyval -> M unit) st :
  (get_json E r ≫= extract) st =
  match upstream E (log st) r with
  | Failed why => (Raise (RequestException why), with_log (log st ++ [r]) st)
  | Responded resp =>
      match json_body resp with
      | Ok doc => extract doc (with_log (log st ++ [r]) st)
      | Raise e => (Raise e, with_log (log st ++ [r]) st)
      end
  end.
Proof.
  rewrite bind_unfold, get_json_run.
  destruct (upstream E (log st) r) as [why|resp]; [reflexivity|].
  destruct (json_body resp); reflexivity.
Qed.



(** ** The configuration *)

(** C5, as the code has it.  The fetch makes no check of the configuration:
    whatever [uid] and [player_name] hold, it sends its request and reads
    the answer, and what it raises is an exception of the request, what
    [.json()] raised on the answer, or an exception of the extraction.  The
    check is made when the program starts, which ends with
    status 1 when [USER_ID] and [PLAYER_NAME] are both set or both unset. *)
Theorem fetch_makes_no_configuration_check
    (E : environment) (st : state) (api_key uid player_name platform : pyval)
    (upper : string -> string) (environ : gmap string string) :
  credentials Player st api_key uid player_name ->
  attrs Player st !! "platform" = Some platform ->
  PlayerStatsCollector.populate_data E st
  = (get_json E (player_request api_key uid player_name platform)
       ≫= PlayerStatsCollector.extract E) st
  /\ (forall e,
         fst (PlayerStatsCollector.populate_data E st) = Raise e ->
         (exists why, e = RequestException why)
         \/ (exists status,
                upstream E (log st)
                  (player_request api_key uid player_name platform)
                = Responded (mkResponse status (Raise e)))
         \/ is_malformed e = true)
  /\ (truthy (Main.environ_get environ "USER_ID")
      = truthy (Main.environ_get environ "PLAYER_NAME") ->
      Main.start upper environ = inl 1).
Proof.
  intros Hc Hp. split; [|split].
  - apply (player_populate_run _ _ _ _ _ _ Hc Hp).
  - intros e. rewrite (player_populate_run _ _ _ _ _ _ Hc Hp), run_fetch.
    destruct (upstream E (log st) _) as [why|resp].
    + intros [= <-]. eauto.
    + destruct resp as [status [doc|e']]; simpl.
      * intros H. right. right. exact (player_extract_failures E doc _ e H).
      * intros [= <-]. right. left. by exists status.
  - intros H. unfold Main.start, Main.check_environment. rewrite H.
    destruct (Main.configure_logging upper environ); [|reflexivity].
    destruct (truthy (Main.environ_get environ "PLAYER_NAME")); reflexivity.
Qed.

(** C5, as the claim has it, fails: with both the id and the name set, and
    with neither, the fetch returns. *)
Lemma fetch_returns_with_both_or_neither :
  fst (PlayerStatsCollector.populate_data
         (Examples.environment_of Examples.steady) Examples.both_set) = Ok tt
  /\ fst (PlayerStatsCollector.populate_data
            (Examples.environment_of Examples.steady) Examples.neither_set) = Ok tt.
Proof. split; vm_compute; reflexivity. Qed.

(** * More of the program *)

(** ** The start of the program *)

Lemma truthy_environ_get environ k :
  truthy (Main.environ_get environ k) = is_set environ k.
Proof. unfold Main.environ_get, is_set. destruct (environ !! k); reflexivity. Qed.

Lemma get_Some_keys {V} k (d : list (string * V)) :
  k ∈ Dict.keys d -> is_Some (Dict.get k d).
Proof.
  unfold Dict.keys. induction d as [|[k' v'] d IH]; simpl.
  - intros H. by apply elem_of_nil in H.
  - intros H. destruct (String.eqb k k') eqn:Ek; [by eexists|].
    apply elem_of_cons in H as [->|H]; [|auto].
    by rewrite String.eqb_refl in Ek.
Qed.

(** [basicConfig] takes the names of the levels and no other string:
    [getLevelName] turns another string into one that starts with
    ["Level "], which is no name of a level either. *)
Lemma configure_logging_known upper environ :
  Main.configure_logging upper environ
  = if known_level (asked_level upper environ) then Ok tt else Raise ValueError.
Proof.
  unfold Main.configure_logging, Main.getLevelName, known_level.
  fold (asked_level upper environ).
  destruct (bool_decide_reflect (asked_level upper environ ∈ level_names))
    as [Hin|Hout].
  - destruct (get_Some_keys _ Main.name_to_level Hin) as [n ->]. reflexivity.
  - rewrite (get_None_keys _ Main.name_to_level Hout). reflexivity.
Qed.

(** X1.  The program gets past its first statements exactly when
    [LOG_LEVEL] in upper case, [INFO] when it is not set, is the name of a
    level of [logging], one of [USER_ID] and [PLAYER_NAME], and not the
    other, is set to a non-empty string and [API_KEY] is set to a non-empty
    string.  It then builds both collectors from the same three variables,
    gives the upper-cased platform to the player collector only, and
    exactly one of the id and the name of the player is true as the fetch
    tests it.  Otherwise the process ends with status 1: with the
    [ValueError] of [basicConfig], which nothing catches, when the level is
    not known, and by [sys.exit(1)] when a check fails. *)
Theorem start_checks (upper : string -> string) (environ : gmap string string) :
  (known_level (asked_level upper environ) = false ->
   Main.configure_logging upper environ = Raise ValueError)
  /\
  if known_level (asked_level upper environ)
     && xorb (is_set environ "USER_ID") (is_set environ "PLAYER_NAME")
     && is_set environ "API_KEY"
  then
    exists st,
      Main.start upper environ = inr st
      /\ credentials Player st (Main.environ_get environ "API_KEY")
           (Main.environ_get environ "USER_ID")
           (Main.environ_get environ "PLAYER_NAME")
      /\ credentials Map st (Main.environ_get environ "API_KEY")
           (Main.environ_get environ "USER_ID")
           (Main.environ_get environ "PLAYER_NAME")
      /\ attrs Player st !! "platform"
         = Some (PStr (upper (default "" (environ !! "PLATFORM"))))
      /\ attrs Map st !! "platform" = None
      /\ xorb (truthy (Main.environ_get environ "USER_ID"))
              (truthy (Main.environ_get environ "PLAYER_NAME")) = true
      /\ log st = []
      /\ instruments st = ApexCollector.init
  else Main.start upper environ = inl 1.
Proof.
  split.
  { intros H. by rewrite configure_logging_known, H. }
  unfold Main.start, Main.check_environment.
  rewrite configure_logging_known, !truthy_environ_get.
  destruct (known_level (asked_level upper environ)); [|reflexivity].
  destruct (is_set environ "USER_ID"), (is_set environ "PLAYER_NAME"),
    (is_set environ "API_KEY"); simpl; try reflexivity;
    (eexists; split; [reflexivity|]; repeat split; reflexivity).
Qed.

(** ** The loop of the program *)

Lemma unregister_each_last cs :
  forall c ns ns',
    MainLoop.unregister_each (cs ++ [c]) ns = Ok ns' ->
    MainLoop.collector ns' = c.
Proof.
  induction cs as [|c0 cs IH]; intros c ns ns'; simpl.
  - destruct (MainLoop.unregister c (MainLoop.registered ns)); simpl;
      [|discriminate].
    intros [= <-]. reflexivity.
  - destruct (MainLoop.unregister c0 (MainLoop.registered ns)); simpl;
      [|discriminate].
    apply IH.
Qed.

Lemma poll_default E n o st :
  o <> MainLoop.the_apex_collector -> MainLoop.poll E n o st = (Ok tt, st).
Proof.
  intros Ho. induction n as [|n IH]; simpl; [reflexivity|].
  rewrite bind_unfold. destruct o; try done; simpl; exact IH.
Qed.

(** X2.  The loop that unregisters the default collectors rebinds the name
    [collector], so the loop that follows calls [collect] on
    [GC_COLLECTOR]: however many turns it makes, the state is the one the
    program started with, no request has been sent and every instrument is
    as [ApexCollector.__init__] made it. *)
Theorem main_loop_leaves_state
    (E : environment) (upper : string -> string) (environ : gmap string string)
    (reg : list MainLoop.object) (n : nat) (r : result unit) (s : state) :
  MainLoop.run E upper environ reg n = inr (r, s) ->
  Main.start upper environ = inr s
  /\ log s = []
  /\ instruments s = ApexCollector.init.
Proof.
  unfold MainLoop.run. intros H.
  assert (Hst : forall st, Main.start upper environ = inr st ->
                           log st = [] /\ instruments st = ApexCollector.init).
  { unfold Main.start. intros st.
    destruct (Main.configure_logging upper environ); [|discriminate].
    destruct (Main.check_environment environ); [discriminate|].
    intros [= <-]. auto. }
  destruct (Main.start upper environ) as [status|st]; [discriminate|].
  destruct (MainLoop.unregister_each _ _) as [ns|e] eqn:Hu.
  - apply (unregister_each_last
             [MainLoop.PROCESS_COLLECTOR; MainLoop.PLATFORM_COLLECTOR]) in Hu.
    rewrite Hu, poll_default in H by discriminate.
    injection H as <- <-. split; [reflexivity|]. by apply Hst.
  - injection H as <- <-. split; [reflexivity|]. by apply Hst.
Qed.

(** ** What the ticks keep *)

Lemma preserves_lookup {A} o name (m : M A) :
  preserves (attrs o) m -> preserves (fun st => attrs o st !! name) m.
Proof. intros H st. simpl. by rewrite H. Qed.

Lemma project_attrs E o : preserves (attrs o) (ApexCollector.project E).
Proof.
  unfold ApexCollector.project, ApexCollector.legend_kills_step, info, gauge_set,
    child_set.
  frame.
Qed.

Lemma collect_config_attr E o name :
  is_config name = true ->
  preserves (fun st => attrs o st !! name) (ApexCollector.collect E).
Proof.
  intros Hn. unfold ApexCollector.collect.
  assert (Hp : preserves (fun st => attrs o st !! name)
                 (PlayerStatsCollector.populate_data E)).
  { unfold PlayerStatsCollector.populate_data, PlayerStatsCollector.get_player_stats,
      PlayerStatsCollector.extract.
    unfold is_config in Hn. simpl in Hn.
    repeat (apply orb_prop in Hn as [Hn|Hn];
            [apply String.eqb_eq in Hn as ->; destruct o; frame_attr|]).
    discriminate. }
  assert (Hm : preserves (fun st => attrs o st !! name)
                 (MapDataCollector.populate_data E)).
  { unfold MapDataCollector.populate_data, MapDataCollector.get_map_rotation,
      MapDataCollector.extract.
    unfold is_config in Hn. simpl in Hn.
    repeat (apply orb_prop in Hn as [Hn|Hn];
            [apply String.eqb_eq in Hn as ->; destruct o; frame_attr|]).
    discriminate. }
  apply preserves_bind; [exact Hp|]. intros _.
  apply preserves_bind; [exact Hm|]. intros _.
  apply preserves_lookup, project_attrs.
Qed.

Lemma collect_config E o : preserves (config o) (ApexCollector.collect E).
Proof.
  intros st. unfold config. apply map_ext_in. intros name Hin.
  apply (collect_config_attr E o name).
  unfold is_config. apply existsb_exists. exists name.
  split; [assumption|apply String.eqb_refl].
Qed.

(** X3.  Calls of [collect], as many as one likes and whether they return
    or raise, never assign the headers, the id, the name or the platform of
    either collector: each call is made with the credentials the program
    started with. *)
Theorem ticks_keep_config
    (E : environment) (n : nat) (o : collector) (st : state) :
  config o (snd (MainLoop.poll E n MainLoop.the_apex_collector st)) = config o st.
Proof.
  revert st. induction n as [|n IH]; intros st; simpl; [reflexivity|].
  rewrite bind_unfold. pose proof (collect_config E o st) as H.
  destruct (ApexCollector.collect E st) as [[[]|e] s]; simpl in *.
  - rewrite IH. exact H.
  - exact H.
Qed.

(** ** The requests of a tick, in full *)

Lemma credentials_attrs o st st' k u n :
  attrs o st' = attrs o st -> credentials o st k u n -> credentials o st' k u n.
Proof. unfold credentials. intros ->. auto. Qed.

(** X4.  With the credentials in place, a call of [collect] sends the
    player request and, when the player fetch returned, the map request
    after it, and nothing else.  Both carry the collector's headers and a
    timeout of 10; the map request has no parameter. *)
Theorem tick_requests
    (E : environment) (st : state)
    (map_key map_uid map_name api_key uid player_name platform : pyval) :
  credentials Map st map_key map_uid map_name ->
  credentials Player st api_key uid player_name ->
  attrs Player st !! "platform" = Some platform ->
  log (snd (ApexCollector.collect E st))
  = (log st
       ++ player_request api_key uid player_name platform
       :: (if is_ok (fst (PlayerStatsCollector.populate_data E st))
           then [map_request map_key] else []))%list
  /\ (headers (player_request api_key uid player_name platform)
      = PDict [("Authorization", api_key)]
      /\ timeout (player_request api_key uid player_name platform) = 10)
  /\ (headers (map_request map_key) = PDict [("Authorization", map_key)]
      /\ timeout (map_request map_key) = 10
      /\ params (map_request map_key) = []).
Proof.
  intros Hm Hp Hplat. split.
  - unfold ApexCollector.collect. rewrite bind_unfold.
    assert (Hlog : log (snd (PlayerStatsCollector.populate_data E st))
                   = (log st ++ [player_request api_key uid player_name platform])%list).
    { rewrite (player_populate_run _ _ _ _ _ _ Hp Hplat).
      rewrite (preserves_after log) by apply player_extract_log.
      rewrite get_json_run. reflexivity. }
    pose proof (player_populate_map_attrs E st) as Hattrs.
    destruct (PlayerStatsCollector.populate_data E st) as [[[]|e] s1];
      simpl in Hlog, Hattrs |- *; [|exact Hlog].
    apply (credentials_attrs Map st s1) in Hm; [|exact Hattrs].
    rewrite (preserves_after log) by (intros _; apply project_log).
    rewrite (map_populate_run _ _ _ _ _ Hm).
    rewrite (preserves_after log)
      by (intros doc; unfold MapDataCollector.extract; frame).
    rewrite get_json_run. simpl. rewrite Hlog, <- app_assoc. reflexivity.
  - unfold player_request, map_request. destruct (truthy player_name); auto.
Qed.

(** ** The kills entry of a detail list *)

(** X5.  The kills of a legend are read from the first entry of its detail
    list whose key is ["kills"]: the entries before it must each have a key,
    the entries after it are not looked at, whatever they are.  An entry
    without a key that comes before any kills entry raises, and a list
    without a kills entry gives 0. *)
Theorem first_kills_first_match (pre post : list pyval) (item : pyval) :
  Forall other_key pre ->
  (getitem item "key" = Ok (PStr "kills") ->
   PlayerStatsCollector.first_kills (pre ++ item :: post) = getitem item "value")
  /\ (forall e,
         getitem item "key" = Raise e ->
         PlayerStatsCollector.first_kills (pre ++ item :: post) = Raise e)
  /\ PlayerStatsCollector.first_kills pre = Ok (PInt 0).
Proof.
  intros Hpre. induction Hpre as [|x pre (k & Hk & Hne) _ IH]; simpl.
  - split; [|split; [|reflexivity]].
    + intros ->. reflexivity.
    + intros e ->. reflexivity.
  - rewrite Hk. simpl. rewrite Hne. exact IH.
Qed.

(** ** A document with a section missing *)

Lemma result_bind_Ok {A B} (a : A) (f : A -> result B) : Ok a ≫= f = f a.
Proof. reflexivity. Qed.

(** X6.  A document that lacks one of the sections a fetch reads first
    makes the extraction raise before its first assignment: no attribute of
    either collector has changed. *)
Theorem missing_section_assigns_nothing
    (E : environment) (doc : pyval) (s : state) (section : string) :
  is_ok (getitem doc section) = false ->
  (section ∈ map_sections ->
   exists e, MapDataCollector.extract doc s = (Raise e, s))
  /\ (section ∈ player_sections ->
      exists e, PlayerStatsCollector.extract E doc s = (Raise e, s)).
Proof.
  intros Hmiss. split; intros Hin.
  - unfold MapDataCollector.extract.
    destruct (getitem doc "current") as [cur|e] eqn:Hc; [|eexists; reflexivity].
    destruct (getitem doc "next") as [nxt|e] eqn:Hn; [|eexists; reflexivity].
    unfold map_sections in Hin.
    repeat (apply elem_of_cons in Hin as [->|Hin];
            [rewrite ?Hc, ?Hn in Hmiss; discriminate|]).
    by apply elem_of_nil in Hin.
  - unfold PlayerStatsCollector.extract.
    destruct (getitem doc "global") as [x1|e] eqn:H1; [|eexists; reflexivity].
    destruct (getitem doc "realtime") as [x2|e] eqn:H2; [|eexists; reflexivity].
    destruct (getitem doc "legends") as [x3|e] eqn:H3; [|eexists; reflexivity].
    rewrite !result_bind_Ok.
    destruct (getitem x3 "selected") as [x4|e]; [|eexists; reflexivity].
    destruct (getitem x3 "all") as [x5|e]; [|eexists; reflexivity].
    destruct (getitem doc "mozambiquehere_internal") as [x6|e] eqn:H6;
      [|eexists; reflexivity].
    destruct (getitem doc "total") as [x7|e] eqn:H7; [|eexists; reflexivity].
    destruct (getitem doc "processingTime") as [x8|e] eqn:H8;
      [|eexists; reflexivity].
    unfold player_sections in Hin.
    repeat (apply elem_of_cons in Hin as [->|Hin];
            [rewrite ?H1, ?H2, ?H3, ?H6, ?H7, ?H8 in Hmiss; discriminate|]).
    by apply elem_of_nil in Hin.
Qed.

(** X7.  A fetch is not all or nothing: when the map document has its two
    sections and the name of the current map, but not the name of the next
    map, the extraction raises with [current_map_name] already replaced and
    the other attributes as they were. *)
Theorem map_snapshot_torn
    (doc cur nxt v : pyval) (s : state) :
  getitem doc "current" = Ok cur ->
  getitem doc "next" = Ok nxt ->
  getitem cur "map" = Ok v ->
  is_ok (getitem nxt "map") = false ->
  exists e,
    MapDataCollector.extract doc s
    = (Raise e, with_attrs Map (<["current_map_name" := v]> (attrs Map s)) s).
Proof.
  intros Hc Hn Hv Hmiss. unfold MapDataCollector.extract.
  rewrite (run_lift _ cur) by assumption.
  rewrite (run_lift _ nxt) by assumption.
  rewrite (run_assign _ _ _ v) by assumption.
  destruct (getitem nxt "map") as [x|e]; [discriminate|].
  exists e. reflexivity.
Qed.

(** ** What a tick that returns shows *)

Lemma same_attrs_refl s : same_attrs s s.
Proof. split; reflexivity. Qed.

Lemma same_attrs_of o s0 s : same_attrs s0 s -> attrs o s = attrs o s0.
Proof. intros [Hp Hm]. destruct o; assumption. Qed.

Lemma same_attrs_with_instruments s0 s i :
  same_attrs s0 s -> same_attrs s0 (with_instruments i s).
Proof. intros [Hp Hm]. split; assumption. Qed.

Lemma walk_getattr {B} o a (f : pyval -> M B) s0 s b s' :
  same_attrs s0 s ->
  (getattr o a ≫= f) s = (Ok b, s') ->
  exists x, attrs o s0 !! a = Some x /\ f x s = (Ok b, s').
Proof.
  intros Hs H. apply bind_ok in H as (x & s1 & H1 & H). unfold getattr in H1.
  rewrite (same_attrs_of o s0 s Hs) in H1.
  destruct (attrs o s0 !! a) as [v|]; [|discriminate].
  injection H1 as <- <-. eauto.
Qed.

Lemma walk_lift {A B} (r : result A) (f : A -> M B) s b s' :
  (lift r ≫= f) s = (Ok b, s') -> exists a, r = Ok a /\ f a s = (Ok b, s').
Proof.
  intros H. apply bind_ok in H as (a & s1 & H1 & H).
  apply lift_ok in H1 as [-> ->]. eauto.
Qed.

Lemma info_ok E name val u s s1 :
  info E name val s = (Ok u, s1) ->
  s1 = with_instruments (<[(name, []) := Info val]> (instruments s)) s.
Proof.
  unfold info.
  destruct (info_rejects_none E && existsb (fun kv => is_none (snd kv)) val);
    [discriminate|].
  unfold store. intros [= _ <-]. reflexivity.
Qed.

Lemma gauge_set_ok E name x u s s1 :
  gauge_set E name x s = (Ok u, s1) ->
  exists f,
    py_float E x = Ok f
    /\ s1 = with_instruments (<[(name, []) := Gauge f]> (instruments s)) s.
Proof.
  unfold gauge_set. intros H. apply bind_ok in H as (f & s2 & H1 & H).
  apply lift_ok in H1 as [H1 ->]. unfold store in H. injection H as _ <-. eauto.
Qed.

Lemma walk_info {B} E name val (f : unit -> M B) s0 s b s' :
  same_attrs s0 s ->
  (info E name val ≫= f) s = (Ok b, s') ->
  exists s1,
    same_attrs s0 s1
    /\ instruments s1 = <[(name, []) := Info val]> (instruments s)
    /\ f tt s1 = (Ok b, s').
Proof.
  intros Hs H. apply bind_ok in H as ([] & s1 & H1 & H).
  apply info_ok in H1 as ->.
  exists (with_instruments (<[(name, []) := Info val]> (instruments s)) s).
  split; [|split; [reflexivity|exact H]].
  by apply same_attrs_with_instruments.
Qed.

Lemma walk_gauge {B} E name x (f : unit -> M B) s0 s b s' :
  same_attrs s0 s ->
  (gauge_set E name x ≫= f) s = (Ok b, s') ->
  exists fl s1,
    py_float E x = Ok fl
    /\ same_attrs s0 s1
    /\ instruments s1 = <[(name, []) := Gauge fl]> (instruments s)
    /\ f tt s1 = (Ok b, s').
Proof.
  intros Hs H. apply bind_ok in H as ([] & s1 & H1 & H).
  apply gauge_set_ok in H1 as (fl & Hfl & ->).
  exists fl, (with_instruments (<[(name, []) := Gauge fl]> (instruments s)) s).
  split; [exact Hfl|]. split; [|split; [reflexivity|exact H]].
  by apply same_attrs_with_instruments.
Qed.

Lemma last_gauge E name x s0 s u s' :
  same_attrs s0 s ->
  gauge_set E name x s = (Ok u, s') ->
  exists fl,
    py_float E x = Ok fl
    /\ same_attrs s0 s'
    /\ instruments s' = <[(name, []) := Gauge fl]> (instruments s).
Proof.
  intros Hs H. apply gauge_set_ok in H as (fl & Hfl & ->).
  exists fl. split; [exact Hfl|]. split; [|reflexivity].
  by apply same_attrs_with_instruments.
Qed.

(** One turn of the loop over the kills of the legends, when it returns. *)
Lemma kills_step_ok E name v s s1 :
  ApexCollector.legend_kills_step E (name, v) s = (Ok tt, s1) ->
  exists fl,
    py_float E v = Ok fl
    /\ same_attrs s s1
    /\ instruments s1 !! legend_child name = Some (Gauge fl)
    /\ forall k, k <> legend_child name -> instruments s1 !! k = instruments s !! k.
Proof.
  unfold ApexCollector.legend_kills_step, legend_child. intros H.
  apply bind_ok in H as ([] & s2 & H1 & H).
  unfold child_set in H. apply bind_ok in H as (fl & s3 & H2 & H).
  apply lift_ok in H2 as [Hfl ->]. unfold store in H. injection H as <-.
  exists fl. split; [exact Hfl|].
  assert (H2 : same_attrs s s2
               /\ forall k, k <> ("legend_kills", [name]) ->
                            instruments s2 !! k = instruments s !! k).
  { unfold labels in H1.
    destruct (instruments s !! ("legend_kills", [name])).
    - injection H1 as <-. split; [apply same_attrs_refl|auto].
    - unfold store in H1. injection H1 as <-.
      split; [apply same_attrs_with_instruments, same_attrs_refl|].
      intros k Hk. simpl. by rewrite lookup_insert_ne. }
  destruct H2 as [Hs2 Hk2]. split; [|split].
  - by apply same_attrs_with_instruments.
  - simpl. by rewrite lookup_insert_eq.
  - intros k Hk. simpl. rewrite lookup_insert_ne by done. by apply Hk2.
Qed.

Lemma same_attrs_trans s0 s1 s2 :
  same_attrs s0 s1 -> same_attrs s1 s2 -> same_attrs s0 s2.
Proof. intros [H1 H2] [H3 H4]. split; congruence. Qed.

(** The loop over the kills of the legends, when it returns: the children
    of the legends it goes through hold their kills, and no other sample
    has changed. *)
Lemma kills_loop_ok E entries :
  forall s s',
    for_each entries (ApexCollector.legend_kills_step E) s = (Ok tt, s') ->
    same_attrs s s'
    /\ (forall k,
           (forall l, l ∈ Dict.keys entries -> k <> legend_child l) ->
           instruments s' !! k = instruments s !! k)
    /\ (NoDup (Dict.keys entries) ->
        forall name v,
          Dict.get name entries = Some v ->
          exists fl,
            py_float E v = Ok fl
            /\ instruments s' !! legend_child name = Some (Gauge fl)).
Proof.
  induction entries as [|[name v] entries IH]; intros s s' H.
  - injection H as <-. split; [apply same_attrs_refl|]. split; [auto|].
    intros _ name v. discriminate.
  - simpl in H. apply bind_ok in H as ([] & s1 & H1 & H).
    apply kills_step_ok in H1 as (fl & Hfl & Hs1 & Hchild & Hother).
    destruct (IH s1 s' H) as (Hs' & Hkeep & Hkids).
    split; [by apply (same_attrs_trans s s1 s')|]. split.
    + intros k Hk. rewrite Hkeep, Hother; [done| |].
      * apply Hk. unfold Dict.keys. simpl. apply list_elem_of_here.
      * intros l Hl. apply Hk. unfold Dict.keys. simpl.
        by apply list_elem_of_further.
    + unfold Dict.keys. simpl. intros Hnd name' v'.
      apply NoDup_cons in Hnd as [Hname Hnd].
      destruct (String.eqb name' name) eqn:En.
      * apply String.eqb_eq in En as ->. intros [= <-].
        exists fl. split; [done|]. rewrite Hkeep; [done|].
        intros l Hl [= <-]. done.
      * intros Hget. by apply Hkids.
Qed.

Lemma walk_loop {B} E entries (f : unit -> M B) s0 s b s' :
  same_attrs s0 s ->
  (for_each entries (ApexCollector.legend_kills_step E) ≫= f) s = (Ok b, s') ->
  exists s1,
    same_attrs s0 s1
    /\ (forall k,
           (forall l, l ∈ Dict.keys entries -> k <> legend_child l) ->
           instruments s1 !! k = instruments s !! k)
    /\ (NoDup (Dict.keys entries) ->
        forall name v,
          Dict.get name entries = Some v ->
          exists fl,
            py_float E v = Ok fl
            /\ instruments s1 !! legend_child name = Some (Gauge fl))
    /\ f tt s1 = (Ok b, s').
Proof.
  intros Hs H. apply bind_ok in H as ([] & s1 & H1 & H).
  apply kills_loop_ok in H1 as (Hs1 & Hkeep & Hkids).
  exists s1. split; [by apply (same_attrs_trans s0 s s1)|]. auto.
Qed.

(** Finds the sample of a key in the instruments a walk has described. *)
Ltac sample :=
  unfold legend_child;
  repeat first
    [ rewrite lookup_insert_eq; reflexivity
    | rewrite lookup_insert_ne by discriminate
    | match goal with
      | H : instruments ?t = _ |- context [instruments ?t !! _] => rewrite H
      end
    | match goal with
      | H : forall k, _ -> instruments ?t !! k = _
        |- context [instruments ?t !! _] =>
          rewrite H by (intros ? ?; unfold legend_child; discriminate)
      end ].

(** What [project] has written when it returns. *)
Lemma project_shows E s0 s' :
  ApexCollector.project E s0 = (Ok tt, s') ->
  same_attrs s0 s'
  /\ Forall (shows_gauge E s') gauge_rows
  /\ Forall (shows_info s') info_rows
  /\ shows_str E s' "banned" "banned" "banned"
  /\ shows_str E s' "party_full" "party_full" "party_full"
  /\ shows_int E s' "is_online"
  /\ shows_int E s' "is_in_game"
  /\ shows_children E s'.
Proof.
  intros H. unfold ApexCollector.project in H.
  pose proof (same_attrs_refl s0) as Q0.
  apply (walk_getattr _ _ _ s0) in H as (cmn & Hx1 & H); [|exact Q0].
  apply (walk_getattr _ _ _ s0) in H as (nmn & Hx2 & H); [|exact Q0].
  apply (walk_info _ _ _ _ s0) in H as (t1 & Q1 & I1 & H); [|exact Q0].
  apply (walk_getattr _ _ _ s0) in H as (x4 & Hx4 & H); [|exact Q1].
  apply (walk_gauge _ _ _ _ s0) in H as (f4 & t2 & Hf4 & Q2 & I2 & H); [|exact Q1].
  apply (walk_getattr _ _ _ s0) in H as (x5 & Hx5 & H); [|exact Q2].
  apply (walk_gauge _ _ _ _ s0) in H as (f5 & t3 & Hf5 & Q3 & I3 & H); [|exact Q2].
  apply (walk_info _ _ _ _ s0) in H as (t4 & Q4 & I4 & H); [|exact Q3].
  apply (walk_getattr _ _ _ s0) in H as (x7 & Hx7 & H); [|exact Q4].
  apply (walk_gauge _ _ _ _ s0) in H as (f7 & t5 & Hf7 & Q5 & I5 & H); [|exact Q4].
  apply (walk_getattr _ _ _ s0) in H as (x8 & Hx8 & H); [|exact Q5].
  apply (walk_gauge _ _ _ _ s0) in H as (f8 & t6 & Hf8 & Q6 & I6 & H); [|exact Q5].
  apply (walk_getattr _ _ _ s0) in H as (x9 & Hx9 & H); [|exact Q6].
  apply (walk_info _ _ _ _ s0) in H as (t7 & Q7 & I7 & H); [|exact Q6].
  apply (walk_getattr _ _ _ s0) in H as (x10 & Hx10 & H); [|exact Q7].
  apply (walk_info _ _ _ _ s0) in H as (t8 & Q8 & I8 & H); [|exact Q7].
  apply (walk_getattr _ _ _ s0) in H as (x11 & Hx11 & H); [|exact Q8].
  apply (walk_gauge _ _ _ _ s0) in H as (f11 & t9 & Hf11 & Q9 & I9 & H); [|exact Q8].
  apply (walk_getattr _ _ _ s0) in H as (x12 & Hx12 & H); [|exact Q9].
  apply (walk_gauge _ _ _ _ s0) in H as (f12 & t10 & Hf12 & Q10 & I10 & H); [|exact Q9].
  apply (walk_getattr _ _ _ s0) in H as (x13 & Hx13 & H); [|exact Q10].
  apply (walk_info _ _ _ _ s0) in H as (t11 & Q11 & I11 & H); [|exact Q10].
  apply (walk_getattr _ _ _ s0) in H as (x14 & Hx14 & H); [|exact Q11].
  apply (walk_gauge _ _ _ _ s0) in H as (f14 & t12 & Hf14 & Q12 & I12 & H); [|exact Q11].
  apply (walk_getattr _ _ _ s0) in H as (x15 & Hx15 & H); [|exact Q12].
  apply (walk_info _ _ _ _ s0) in H as (t13 & Q13 & I13 & H); [|exact Q12].
  apply (walk_getattr _ _ _ s0) in H as (x16 & Hx16 & H); [|exact Q13].
  apply (walk_gauge _ _ _ _ s0) in H as (f16 & t14 & Hf16 & Q14 & I14 & H); [|exact Q13].
  apply (walk_getattr _ _ _ s0) in H as (x17 & Hx17 & H); [|exact Q14].
  apply (walk_gauge _ _ _ _ s0) in H as (f17 & t15 & Hf17 & Q15 & I15 & H); [|exact Q14].
  apply (walk_getattr _ _ _ s0) in H as (x18 & Hx18 & H); [|exact Q15].
  apply (walk_info _ _ _ _ s0) in H as (t16 & Q16 & I16 & H); [|exact Q15].
  apply (walk_getattr _ _ _ s0) in H as (x19 & Hx19 & H); [|exact Q16].
  apply (walk_gauge _ _ _ _ s0) in H as (f19 & t17 & Hf19 & Q17 & I17 & H); [|exact Q16].
  apply (walk_getattr _ _ _ s0) in H as (x20 & Hx20 & H); [|exact Q17].
  apply (walk_gauge _ _ _ _ s0) in H as (f20 & t18 & Hf20 & Q18 & I18 & H); [|exact Q17].
  apply (walk_getattr _ _ _ s0) in H as (x21 & Hx21 & H); [|exact Q18].
  apply (walk_gauge _ _ _ _ s0) in H as (f21 & t19 & Hf21 & Q19 & I19 & H); [|exact Q18].
  apply (walk_getattr _ _ _ s0) in H as (x22 & Hx22 & H); [|exact Q19].
  apply (walk_gauge _ _ _ _ s0) in H as (f22 & t20 & Hf22 & Q20 & I20 & H); [|exact Q19].
  apply (walk_getattr _ _ _ s0) in H as (x23 & Hx23 & H); [|exact Q20].
  apply (walk_info _ _ _ _ s0) in H as (t21 & Q21 & I21 & H); [|exact Q20].
  apply (walk_getattr _ _ _ s0) in H as (x24 & Hx24 & H); [|exact Q21].
  apply walk_lift in H as (n24 & Hn24 & H).
  apply (walk_gauge _ _ _ _ s0) in H as (f24 & t22 & Hf24 & Q22 & I22 & H); [|exact Q21].
  change (float_of_int n24 = Ok f24) in Hf24.
  apply (walk_getattr _ _ _ s0) in H as (x25 & Hx25 & H); [|exact Q22].
  apply walk_lift in H as (n25 & Hn25 & H).
  apply (walk_gauge _ _ _ _ s0) in H as (f25 & t23 & Hf25 & Q23 & I23 & H); [|exact Q22].
  change (float_of_int n25 = Ok f25) in Hf25.
  apply (walk_getattr _ _ _ s0) in H as (x26 & Hx26 & H); [|exact Q23].
  apply (walk_info _ _ _ _ s0) in H as (t24 & Q24 & I24 & H); [|exact Q23].
  apply (walk_getattr _ _ _ s0) in H as (x27 & Hx27 & H); [|exact Q24].
  apply (walk_info _ _ _ _ s0) in H as (t25 & Q25 & I25 & H); [|exact Q24].
  apply (walk_getattr _ _ _ s0) in H as (x28 & Hx28 & H); [|exact Q25].
  apply (walk_info _ _ _ _ s0) in H as (t26 & Q26 & I26 & H); [|exact Q25].
  apply (walk_getattr _ _ _ s0) in H as (x29 & Hx29 & H); [|exact Q26].
  apply (walk_gauge _ _ _ _ s0) in H as (f29 & t27 & Hf29 & Q27 & I27 & H); [|exact Q26].
  apply (walk_getattr _ _ _ s0) in H as (x30 & Hx30 & H); [|exact Q27].
  apply (walk_info _ _ _ _ s0) in H as (t28 & Q28 & I28 & H); [|exact Q27].
  apply (walk_getattr _ _ _ s0) in H as (d & Hd & H); [|exact Q28].
  apply walk_lift in H as (entries & Hitems & H).
  destruct d as [| | | | | |d]; try discriminate. injection Hitems as ->.
  apply (walk_loop _ _ _ s0) in H as (t29 & Q29 & Lkeep & Lkids & H); [|exact Q28].
  apply (walk_getattr _ _ _ s0) in H as (x32 & Hx32 & H); [|exact Q29].
  apply (walk_gauge _ _ _ _ s0) in H as (f32 & t30 & Hf32 & Q30 & I30 & H); [|exact Q29].
  apply (walk_getattr _ _ _ s0) in H as (x33 & Hx33 & H); [|exact Q30].
  apply walk_lift in H as (f33 & Hf33 & H).
  apply (walk_gauge _ _ _ _ s0) in H as (g33 & t31 & Hg33 & Q31 & I31 & H); [|exact Q30].
  injection Hg33 as <-.
  apply (walk_getattr _ _ _ s0) in H as (x34 & Hx34 & H); [|exact Q31].
  apply (walk_info _ _ _ _ s0) in H as (t32 & Q32 & I32 & H); [|exact Q31].
  apply (walk_getattr _ _ _ s0) in H as (x35 & Hx35 & H); [|exact Q32].
  apply (last_gauge _ _ _ s0) in H as (f35 & Hf35 & Qend & Iend); [|exact Q32].
  assert (Hattrs : forall o, attrs o s' = attrs o s0)
    by (intros o; by apply same_attrs_of).
  split; [exact Qend|].
  split; [|split; [|split; [|split; [|split; [|split]]]]].
  - unfold gauge_rows.
    repeat (apply Forall_cons; split);
      try (apply Forall_nil; exact I);
      (eexists; eexists; split;
       [rewrite Hattrs; eassumption | split; [eassumption | sample]]).
  - unfold info_rows.
    repeat (apply Forall_cons; split);
      try (apply Forall_nil; exact I);
      (eexists; split; [rewrite Hattrs; eassumption | sample]).
  - eexists; split; [rewrite Hattrs; eassumption | sample].
  - eexists; split; [rewrite Hattrs; eassumption | sample].
  - eexists; eexists; eexists; split;
      [rewrite Hattrs; eassumption
      | split; [eassumption | split; [eassumption | sample]]].
  - eexists; eexists; eexists; split;
      [rewrite Hattrs; eassumption
      | split; [eassumption | split; [eassumption | sample]]].
  - exists entries. split; [rewrite Hattrs; exact Hd|].
    intros Hnd name v Hget.
    destruct (Lkids Hnd name v Hget) as (fl & Hfl & Hchild).
    exists fl. split; [exact Hfl|]. rewrite <- Hchild. sample. reflexivity.
Qed.

(** A call of [collect] that returns is a player extraction, a map fetch
    and a projection that returned. *)
Lemma collect_ok E st st' :
  ApexCollector.collect E st = (Ok tt, st') ->
  exists player_stats s0 s1 s2,
    PlayerStatsCollector.extract E player_stats s0 = (Ok tt, s1)
    /\ attrs Player s2 = attrs Player s1
    /\ ApexCollector.project E s2 = (Ok tt, st').
Proof.
  unfold ApexCollector.collect. intros H.
  apply bind_ok in H as ([] & s1 & Hp & H).
  apply bind_ok in H as ([] & s2 & Hm & H).
  pose proof (kept (attrs Player) _ _ _ _ (map_populate_player_attrs E) Hm) as Ha.
  unfold PlayerStatsCollector.populate_data in Hp.
  apply bind_ok in Hp as (h & t1 & _ & Hp).
  apply bind_ok in Hp as (k & t2 & _ & Hp).
  apply bind_ok in Hp as (player_stats & s0 & _ & Hp).
  exists player_stats, s0, s1, s2. auto.
Qed.

(** The dict an extraction that returned has left in [all_legends_kills]. *)
Lemma extract_kills_dict E player_stats s0 s1 :
  PlayerStatsCollector.extract E player_stats s0 = (Ok tt, s1) ->
  exists m,
    attrs Player s1 !! "all_legends_kills" = Some (PDict m)
    /\ NoDup (Dict.keys m).
Proof.
  intros H. unfold PlayerStatsCollector.extract in H.
  do 7 step H.
  do 22 step H.
  step H as u Hu s_empty Hs_empty.
  step H as all_legends Hitems s_items Hs_items. subst s_items.
  apply bind_ok in H as ([] & s_loop & Hloop & H).
  eapply (kept (fun st => attrs Player st !! "all_legends_kills")) in H;
    [|frame_attr].
  assert (Hempty : attrs Player s_empty !! kills_attr = Some (PDict []))
    by (rewrite Hs_empty; simpl; by rewrite lookup_insert_eq).
  destruct (legends_loop_dict all_legends s_empty s_loop [] (NoDup_nil_2) Hempty Hloop)
    as (m & Hm & Hndm).
  exists m. rewrite H. auto.
Qed.

(** X8.  After a call of [collect] that returned, every instrument shows
    the attributes the collectors hold: each gauge [float] of its
    attribute, each info record its attribute under its key ([banned] as
    [str] makes it), and each legend of [all_legends_kills] has a child of
    [legend_kills] with [float] of its kills. *)
Theorem tick_shows_snapshot (E : environment) (st st' : state) :
  ApexCollector.collect E st = (Ok tt, st') ->
  Forall (shows_gauge E st') gauge_rows
  /\ Forall (shows_info st') info_rows
  /\ shows_str E st' "banned" "banned" "banned"
  /\ exists d,
       attrs Player st' !! "all_legends_kills" = Some (PDict d)
       /\ NoDup (Dict.keys d)
       /\ forall name v,
            Dict.get name d = Some v ->
            exists f,
              py_float E v = Ok f
              /\ instruments st' !! legend_child name = Some (Gauge f).
Proof.
  intros H. apply collect_ok in H as (ps & s0 & s1 & s2 & Hx & Ha & Hp).
  apply extract_kills_dict in Hx as (m & Hm & Hnd).
  apply project_shows in Hp
    as ([HP _] & Hg & Hi & Hb & _ & _ & _ & d & Hd & Hkids).
  split; [exact Hg|]. split; [exact Hi|]. split; [exact Hb|].
  rewrite HP, Ha, Hm in Hd. injection Hd as <-.
  exists m. split; [by rewrite HP, Ha|]. split; [exact Hnd|].
  by apply Hkids.
Qed.

(** The flags an extraction that returned has left. *)
Lemma extract_flags E player_stats s0 s1 :
  PlayerStatsCollector.extract E player_stats s0 = (Ok tt, s1) ->
  exists realtime online in_game full,
    getitem player_stats "realtime" = Ok realtime
    /\ getitem realtime "isOnline" = Ok online
    /\ getitem realtime "isInGame" = Ok in_game
    /\ getitem realtime "partyFull" = Ok full
    /\ attrs Player s1 !! "is_online" = Some (PBool (truthy online))
    /\ attrs Player s1 !! "is_in_game" = Some (PBool (truthy in_game))
    /\ attrs Player s1 !! "party_full" = Some (PBool (truthy full)).
Proof.
  intros H. unfold PlayerStatsCollector.extract in H.
  step H.
  step H as realtime Hrt.
  do 5 step H.
  do 15 step H.
  step H as flag1 Hflag1 t1 Ht1.
  step H as flag2 Hflag2 t2 Ht2.
  step H as flag3 Hflag3 t3 Ht3.
  apply result_bind_ok in Hflag1 as (online & Ho & [= <-]).
  apply result_bind_ok in Hflag2 as (in_game & Hg & [= <-]).
  apply result_bind_ok in Hflag3 as (full & Hf & [= <-]).
  pose proof H as H1. pose proof H as H2.
  eapply (kept (fun st => attrs Player st !! "is_online")) in H; [|frame_attr].
  eapply (kept (fun st => attrs Player st !! "is_in_game")) in H1; [|frame_attr].
  eapply (kept (fun st => attrs Player st !! "party_full")) in H2; [|frame_attr].
  exists realtime, online, in_game, full.
  do 4 (split; [assumption|]).
  rewrite H, H1, H2, Ht3, !attrs_with_attrs.
  rewrite lookup_insert_eq, !(lookup_insert_ne _ "party_full") by discriminate.
  rewrite Ht2, !attrs_with_attrs.
  rewrite lookup_insert_eq, !(lookup_insert_ne _ "is_in_game") by discriminate.
  rewrite Ht1, !attrs_with_attrs, lookup_insert_eq.
  auto.
Qed.

(** X9.  The three flags of the realtime section are read as Python tests
    them.  After a call of [collect] that returned, the gauges [is_online]
    and [is_in_game] hold 1.0 when [realtime.isOnline] and
    [realtime.isInGame] are true and 0.0 otherwise, and the info record
    [party_full] holds ["True"] or ["False"]. *)
Theorem tick_shows_flags
    (E : environment) (st st' : state)
    (api_key uid player_name platform player_stats : pyval) :
  player_fetched E st api_key uid player_name platform player_stats ->
  ApexCollector.collect E st = (Ok tt, st') ->
  exists realtime online in_game full,
    getitem player_stats "realtime" = Ok realtime
    /\ getitem realtime "isOnline" = Ok online
    /\ getitem realtime "isInGame" = Ok in_game
    /\ getitem realtime "partyFull" = Ok full
    /\ instruments st' !! ("is_online", [])
       = Some (Gauge (binary64_of_Z (if truthy online then 1 else 0)))
    /\ instruments st' !! ("is_in_game", [])
       = Some (Gauge (binary64_of_Z (if truthy in_game then 1 else 0)))
    /\ instruments st' !! ("party_full", [])
       = Some (Info [("party_full",
                      PStr (if truthy full then "True" else "False"))]).
Proof.
  intros Hf H. unfold ApexCollector.collect in H.
  apply bind_ok in H as ([] & s1 & Hp & H).
  apply bind_ok in H as ([] & s2 & Hm & H).
  pose proof (kept (attrs Player) _ _ _ _ (map_populate_player_attrs E) Hm) as Ha.
  rewrite (player_populate_fetched _ _ _ _ _ _ _ Hf) in Hp.
  apply extract_flags in Hp
    as (realtime & online & in_game & full & Hrt & Ho & Hg & Hfu & A1 & A2 & A3).
  apply project_shows in H
    as ([HP _] & _ & _ & _ & (x3 & Hx3 & I3) & (x1 & n1 & f1 & Hx1 & Hn1 & Hf1 & I1)
        & (x2 & n2 & f2 & Hx2 & Hn2 & Hf2 & I2) & _).
  rewrite HP, Ha in Hx1, Hx2, Hx3.
  rewrite A1 in Hx1. rewrite A2 in Hx2. rewrite A3 in Hx3.
  injection Hx1 as <-. injection Hx2 as <-. injection Hx3 as <-.
  exists realtime, online, in_game, full.
  do 4 (split; [assumption|]).
  rewrite I1, I2, I3. simpl in Hn1, Hn2.
  injection Hn1 as <-. injection Hn2 as <-.
  split; [|split].
  - destruct (truthy online); vm_compute in Hf1; injection Hf1 as <-; reflexivity.
  - destruct (truthy in_game); vm_compute in Hf2; injection Hf2 as <-; reflexivity.
  - destruct (truthy full); reflexivity.
Qed.

(** ** The samples a tick leaves alone *)

Lemma store_sample name ls x k :
  (name, ls) <> k -> preserves (fun st => instruments st !! k) (store name ls x).
Proof. intros Hk st. simpl. by rewrite lookup_insert_ne. Qed.

Lemma labels_sample name label k :
  (name, [label]) <> k ->
  preserves (fun st => instruments st !! k) (labels name label).
Proof.
  intros Hk st. unfold labels.
  destruct (instruments st !! (name, [label])); [reflexivity|].
  by apply store_sample.
Qed.

Lemma preserves_for_each_in {X A} (proj : state -> X) (l : list A)
    (body : A -> M unit) :
  (forall x, x ∈ l -> preserves proj (body x)) -> preserves proj (for_each l body).
Proof.
  induction l as [|x l IH]; intros Hb; simpl.
  - apply preserves_ret.
  - apply preserves_bind.
    + apply Hb, list_elem_of_here.
    + intros _. apply IH. intros y Hy. by apply Hb, list_elem_of_further.
Qed.

Lemma keeps_frame A k {B} (m : M B) :
  preserves (fun st => instruments st !! k) m ->
  preserves (attrs Player) m ->
  keeps A k m.
Proof. intros Hi Ha st <-. split; [apply Hi|apply Ha]. Qed.

Lemma keeps_bind A k {B C} (m : M B) (f : B -> M C) :
  keeps A k m -> (forall b, keeps A k (f b)) -> keeps A k (m ≫= f).
Proof.
  intros Hm Hf st Hst. rewrite bind_unfold. destruct (Hm st Hst) as [Hi Ha].
  destruct (m st) as [[b|e] s]; simpl in *; [|auto].
  destruct (Hf b s Ha) as [Hi' Ha']. split; [congruence|assumption].
Qed.

Lemma keeps_getattr_bind A k {C} name (f : pyval -> M C) :
  (forall x, A !! name = Some x -> keeps A k (f x)) ->
  keeps A k (getattr Player name ≫= f).
Proof.
  intros Hf st Hst. rewrite bind_unfold. unfold getattr. rewrite Hst.
  destruct (A !! name) as [x|] eqn:Hx; simpl; [|auto].
  by apply Hf.
Qed.

Lemma keeps_lift_bind A k {B C} (r : result B) (f : B -> M C) :
  (forall b, r = Ok b -> keeps A k (f b)) -> keeps A k (lift r ≫= f).
Proof.
  intros Hf st Hst. destruct r as [b|e]; [|simpl; auto].
  by apply (Hf b eq_refl).
Qed.

(** Settles that a statement of [project] other than the loop leaves the
    child of a legend alone. *)
Ltac keep_child :=
  apply keeps_frame;
  [ repeat (frame; try (apply store_sample; unfold legend_child; discriminate))
  | frame ].

Lemma kills_loop_keeps E entries l :
  l ∉ Dict.keys entries ->
  preserves (fun st => instruments st !! legend_child l)
    (for_each entries (ApexCollector.legend_kills_step E)).
Proof.
  intros Hl. apply preserves_for_each_in. intros [name v] Hin.
  assert (Hne : ("legend_kills", [name]) <> legend_child l).
  { intros [= ->]. apply Hl. unfold Dict.keys.
    apply list_elem_of_fmap. by exists (l, v). }
  unfold ApexCollector.legend_kills_step, child_set.
  apply preserves_bind; [by apply labels_sample|]. intros _.
  apply preserves_bind; [apply preserves_lift|]. intros f.
  by apply store_sample.
Qed.

Lemma kills_loop_attrs E entries o :
  preserves (attrs o) (for_each entries (ApexCollector.legend_kills_step E)).
Proof. unfold ApexCollector.legend_kills_step, child_set. frame. Qed.

Lemma project_keeps_child E l s :
  (forall d, attrs Player s !! "all_legends_kills" = Some (PDict d) ->
             l ∉ Dict.keys d) ->
  instruments (snd (ApexCollector.project E s)) !! legend_child l
  = instruments s !! legend_child l.
Proof.
  intros Hl.
  cut (keeps (attrs Player s) (legend_child l) (ApexCollector.project E)).
  { intros H. by apply (H s). }
  unfold ApexCollector.project, info, gauge_set.
  repeat first
    [ apply keeps_getattr_bind; intros d Hd;
      apply keeps_lift_bind; intros entries Hentries;
      destruct d as [| | | | | |d]; try discriminate;
      injection Hentries as ->;
      apply keeps_bind;
      [ apply keeps_frame;
        [apply kills_loop_keeps; by apply Hl | apply kills_loop_attrs]
      | intros _ ]
    | apply keeps_bind; [keep_child|intros ?]
    | keep_child ].
Qed.

(** X10.  A call of [collect] never removes a child of [legend_kills]: the
    child of a legend that is not in [all_legends_kills] after the call is
    as it was before the call, so a legend whose kills have gone back to 0
    keeps showing its last kills. *)
Theorem absent_legend_keeps_child (E : environment) (st : state) (l : string) :
  (forall d,
      attrs Player (snd (ApexCollector.collect E st)) !! "all_legends_kills"
      = Some (PDict d) ->
      l ∉ Dict.keys d) ->
  instruments (snd (ApexCollector.collect E st)) !! legend_child l
  = instruments st !! legend_child l.
Proof.
  unfold ApexCollector.collect. rewrite !bind_unfold.
  pose proof (player_populate_instruments E st) as Ip.
  destruct (PlayerStatsCollector.populate_data E st) as [[[]|e1] s1];
    simpl in Ip; [|intros _; simpl; by rewrite Ip].
  rewrite bind_unfold.
  pose proof (map_populate_instruments E s1) as Im.
  destruct (MapDataCollector.populate_data E s1) as [[[]|e2] s2];
    simpl in Im; [|intros _; simpl; by rewrite Im, Ip].
  intros Hl. rewrite (project_attrs E Player s2) in Hl.
  rewrite (project_keeps_child E l s2 Hl). by rewrite Im, Ip.
Qed.

Lemma run_writes_dom W :
  forall i, dom i ⊆ dom (run_writes W i).
Proof.
  induction W as [|w W IH]; intros i; simpl; [done|].
  unfold run_writes in *. simpl. etrans; [|apply IH].
  destruct w as [k x|k x]; simpl.
  - rewrite dom_insert. set_solver.
  - destruct (i !! k); [done|]. rewrite dom_insert. set_solver.
Qed.

(** X11.  A call of [collect], whether it returns or raises, removes no
    instrument and no child of [legend_kills]: every sample there was
    before the call is there after it. *)
Theorem collect_removes_no_sample (E : environment) (st : state) :
  dom (instruments st) ⊆ dom (instruments (snd (ApexCollector.collect E st))).
Proof.
  unfold ApexCollector.collect. rewrite !bind_unfold.
  pose proof (player_populate_instruments E st) as Ip.
  destruct (PlayerStatsCollector.populate_data E st) as [[[]|e1] s1];
    simpl in Ip; [|simpl; by rewrite Ip].
  rewrite bind_unfold.
  pose proof (map_populate_instruments E s1) as Im.
  destruct (MapDataCollector.populate_data E s1) as [[[]|e2] s2];
    simpl in Im; [|simpl; by rewrite Im, Ip].
  destruct (scripted_project E s2) as (r & W & HW).
  destruct (HW s2 (same_attrs_refl s2)) as (_ & Hi & _).
  rewrite Hi, <- Ip, <- Im. apply run_writes_dom.
Qed.

(** * The theorems at work on the example documents *)

Lemma started_fetched :
  player_fetched Examples.steady_environment Examples.started
    (PStr "secret") PNone (PStr "chkpwd") (PStr "PC") Examples.player_stats.
Proof.
  split; [|split].
  - repeat split; reflexivity.
  - reflexivity.
  - exists 200. reflexivity.
Qed.

Lemma returns_pair (m : M unit) st : fst (m st) = Ok tt -> m st = (Ok tt, snd (m st)).
Proof. destruct (m st) as [r s]. simpl. intros ->. reflexivity. Qed.

Lemma started_returns :
  PlayerStatsCollector.populate_data Examples.steady_environment Examples.started
  = (Ok tt,
     snd (PlayerStatsCollector.populate_data
            Examples.steady_environment Examples.started)).
Proof. apply returns_pair. vm_compute. reflexivity. Qed.

(** C1 on the collection of the specification: the mapping is exactly
    [{"Wraith": 12}].  On a collection whose lists hold several entries the
    mapping is [{"Wraith": 12, "Gibraltar": 5}], and these are the legends
    the specification counts there. *)
Lemma legend_kills_mapping_witness :
  (exists legends all_legends mapping,
      getitem Examples.player_stats "legends" = Ok legends
      /\ getitem legends "all" = Ok (PDict all_legends)
      /\ attrs Player
           (snd (PlayerStatsCollector.populate_data
                   Examples.steady_environment Examples.started))
           !! "all_legends_kills" = Some (PDict mapping)
      /\ NoDup (Dict.keys mapping)
      /\ (NoDup (Dict.keys all_legends) ->
          forall name v,
            Dict.get name mapping = Some v <-> counted all_legends name v))
  /\ getitem Examples.player_stats "legends"
       ≫= (fun legends => getitem legends "all")
     = Ok (PDict Examples.all_legends)
  /\ attrs Player
       (snd (PlayerStatsCollector.populate_data
               Examples.steady_environment Examples.started))
       !! "all_legends_kills" = Some (PDict [("Wraith", PInt 12)])
  /\ attrs Player
       (snd (PlayerStatsCollector.populate_data
               (Examples.environment_of Scenes.mixed) Examples.started))
       !! "all_legends_kills"
     = Some (PDict [("Wraith", PInt 12); ("Gibraltar", PInt 5)])
  /\ counted Scenes.mixed_legends "Wraith" (PInt 12)
  /\ counted Scenes.mixed_legends "Gibraltar" (PInt 5)
  /\ (forall v, ~ counted Scenes.mixed_legends "Bangalore" v)
  /\ (forall v, ~ counted Scenes.mixed_legends "Pathfinder" v).
Proof.
  split; [|split; [|split; [|split; [|split; [|split; [|split]]]]]].
  - exact (legend_kills_mapping _ _ _ _ _ _ _ _ started_fetched started_returns).
  - reflexivity.
  - vm_compute. reflexivity.
  - vm_compute. reflexivity.
  - split; [discriminate|]. eexists _, _. repeat split; reflexivity.
  - split; [discriminate|]. eexists _, _. repeat split; reflexivity.
  - intros v (_ & info & data & Hi & Hd & Hk & Hz).
    injection Hi as <-. injection Hd as <-.
    unfold kills_value in Hk. simpl in Hk. subst v. discriminate.
  - intros v (_ & info & data & Hi & Hd & Hk & Hz).
    injection Hi as <-. injection Hd as <-.
    unfold kills_value in Hk. simpl in Hk. injection Hk as <-. discriminate.
Defined.

(** C3 on a tick whose map fetch times out. *)
Lemma fetch_failure_keeps_instruments_witness :
  fst (ApexCollector.collect (Examples.environment_of Examples.map_down)
         Examples.started) = Raise (RequestException Timeout)
  /\ instruments
       (snd (ApexCollector.collect (Examples.environment_of Examples.map_down)
               Examples.started))
     = instruments Examples.started.
Proof.
  apply (fetch_failure_keeps_instruments
           (Examples.environment_of Examples.map_down) Examples.started
           (RequestException Timeout)).
  right. split; vm_compute; reflexivity.
Defined.

(** C4 on the document of the specification. *)
Lemma map_fetch_direct_projection_witness :
  exists st',
    MapDataCollector.populate_data Examples.steady_environment Examples.started
    = (Ok tt, st')
    /\ attrs Map st' !! "current_map_name" = Some (PStr "Kings Canyon")
    /\ attrs Map st' !! "current_map_duration" = Some (PInt 45)
    /\ attrs Map st' !! "current_map_remaining" = Some (PInt 10)
    /\ attrs Map st' !! "next_map_name" = Some (PStr "World's Edge")
    /\ attrs Map st' !! "next_map_start" = Some (PInt 1700000000)
    /\ attrs Map st' !! "next_map_duration" = Some (PInt 45).
Proof.
  apply (map_fetch_direct_projection
           Examples.steady_environment Examples.started
           (PStr "secret") PNone (PStr "chkpwd") 200
           Examples.map_rotation_fields Examples.current_map Examples.next_map);
    try reflexivity.
  repeat split; reflexivity.
Defined.


(** C5 with both the id and the name set: the fetch is the request by name
    followed by the extraction, and the program would not have started. *)
Lemma fetch_makes_no_configuration_check_witness :
  PlayerStatsCollector.populate_data Examples.steady_environment Examples.both_set
  = (get_json Examples.steady_environment
       (player_request (PStr "secret") (PStr "1007") (PStr "chkpwd") (PStr "PC"))
       ≫= PlayerStatsCollector.extract Examples.steady_environment)
      Examples.both_set
  /\ (forall e,
         fst (PlayerStatsCollector.populate_data
                Examples.steady_environment Examples.both_set) = Raise e ->
         (exists why, e = RequestException why)
         \/ (exists status,
                upstream Examples.steady_environment (log Examples.both_set)
                  (player_request (PStr "secret") (PStr "1007") (PStr "chkpwd")
                     (PStr "PC"))
                = Responded (mkResponse status (Raise e)))
         \/ is_malformed e = true)
  /\ (truthy (Main.environ_get Examples.both_environ "USER_ID")
      = truthy (Main.environ_get Examples.both_environ "PLAYER_NAME") ->
      Main.start (fun s => s) Examples.both_environ = inl 1).
Proof.
  apply (fetch_makes_no_configuration_check
           Examples.steady_environment Examples.both_set
           (PStr "secret") (PStr "1007") (PStr "chkpwd") (PStr "PC")
           (fun s => s) Examples.both_environ).
  - repeat split; reflexivity.
  - reflexivity.
Defined.

(** C6 on the example document, whose selected legend lists 3 wins before
    12 kills: the kills of the active legend are read as 3. *)
Lemma active_legend_kills_positional_witness :
  (exists legends selected first rest value,
      getitem Examples.player_stats "legends" = Ok legends
      /\ getitem legends "selected" = Ok selected
      /\ getitem selected "data" = Ok (PList (first :: rest))
      /\ getitem first "value" = Ok value
      /\ attrs Player
           (snd (PlayerStatsCollector.populate_data
                   Examples.steady_environment Examples.started))
           !! "current_legend_br_kills" = Some value)
  /\ attrs Player
       (snd (PlayerStatsCollector.populate_data
               Examples.steady_environment Examples.started))
       !! "current_legend_br_kills" = Some (PInt 3).
Proof.
  split.
  - exact (active_legend_kills_positional _ _ _ _ _ _ _ _
             started_fetched started_returns).
  - vm_compute. reflexivity.
Defined.

(** C8 on the example documents. *)
Lemma collect_idempotent_witness :
  instruments
    (snd (ApexCollector.collect Examples.steady_environment
            (snd (ApexCollector.collect Examples.steady_environment
                    Examples.started))))
  = instruments
      (snd (ApexCollector.collect Examples.steady_environment Examples.started)).
Proof.
  apply (collect_idempotent Examples.steady_environment Examples.started).
  intros h h' r. reflexivity.
Defined.

(** C9 on the example state, where the name is set: the request carries
    the name and the platform. *)
Lemma player_request_selection_witness :
  exists r,
    log (snd (PlayerStatsCollector.populate_data
                Examples.steady_environment Examples.started))
    = (log Examples.started ++ [r])%list
    /\ url r = PlayerStatsCollector.URL
    /\ (truthy (PStr "chkpwd") = true ->
        params r = [("player_name", PStr "chkpwd"); ("platform", PStr "PC")]
        /\ Dict.get "uid" (params r) = None)
    /\ (truthy (PStr "chkpwd") = false ->
        params r = [("uid", PNone); ("platform", PStr "PC")]).
Proof.
  apply (player_request_selection Examples.steady_environment Examples.started
           (PStr "secret") PNone (PStr "chkpwd") (PStr "PC")).
  - repeat split; reflexivity.
  - reflexivity.
Defined.

(** C10 on the example document, whose battle pass has no level. *)
Lemma battle_pass_or_zero_witness :
  (exists glob battlepass level history,
      getitem Examples.player_stats "global" = Ok glob
      /\ getitem glob "battlepass" = Ok battlepass
      /\ getitem battlepass "level" = Ok level
      /\ getitem battlepass "history" = Ok history
      /\ attrs Player
           (snd (PlayerStatsCollector.populate_data
                   Examples.steady_environment Examples.started))
           !! "battle_pass_level"
         = Some (if truthy level then level else PInt 0)
      /\ attrs Player
           (snd (PlayerStatsCollector.populate_data
                   Examples.steady_environment Examples.started))
           !! "battle_pass_history"
         = Some (if truthy history then history else PInt 0)
      /\ Forall (fun v => py_or v (PInt 0) = PInt 0)
           [PNone; PBool false; PInt 0; PStr ""])
  /\ attrs Player
       (snd (PlayerStatsCollector.populate_data
               Examples.steady_environment Examples.started))
       !! "battle_pass_level" = Some (PInt 0).
Proof.
  split.
  - exact (battle_pass_or_zero _ _ _ _ _ _ _ _ started_fetched started_returns).
  - vm_compute. reflexivity.
Defined.

(** ** The further properties on the example documents *)

Lemma started_collects :
  ApexCollector.collect Examples.steady_environment Examples.started
  = (Ok tt, Scenes.shown).
Proof. apply returns_pair. vm_compute. reflexivity. Qed.

(** X2 with [PLAYER_NAME], [API_KEY] and [PLATFORM] set, after three turns
    of the loop. *)
Lemma main_loop_leaves_state_witness :
  MainLoop.run Examples.steady_environment (fun s => s) Scenes.name_environ
    Scenes.default_registry 3
  = inr (Ok tt, Examples.started)
  /\ Main.start (fun s => s) Scenes.name_environ = inr Examples.started
  /\ log Examples.started = []
  /\ instruments Examples.started = ApexCollector.init.
Proof.
  assert (H : MainLoop.run Examples.steady_environment (fun s => s)
                Scenes.name_environ Scenes.default_registry 3
              = inr (Ok tt, Examples.started))
    by (vm_compute; reflexivity).
  split; [exact H|].
  exact (main_loop_leaves_state _ _ _ _ _ _ _ H).
Defined.

(** X4 on the example state: the player request by name, then the map
    request. *)
Lemma tick_requests_witness :
  log (snd (ApexCollector.collect Examples.steady_environment Examples.started))
  = (log Examples.started
       ++ player_request (PStr "secret") PNone (PStr "chkpwd") (PStr "PC")
       :: (if is_ok (fst (PlayerStatsCollector.populate_data
                            Examples.steady_environment Examples.started))
           then [map_request (PStr "secret")] else []))%list
  /\ (headers (player_request (PStr "secret") PNone (PStr "chkpwd") (PStr "PC"))
      = PDict [("Authorization", PStr "secret")]
      /\ timeout (player_request (PStr "secret") PNone (PStr "chkpwd") (PStr "PC"))
         = 10)
  /\ (headers (map_request (PStr "secret"))
      = PDict [("Authorization", PStr "secret")]
      /\ timeout (map_request (PStr "secret")) = 10
      /\ params (map_request (PStr "secret")) = []).
Proof.
  apply (tick_requests Examples.steady_environment Examples.started
           (PStr "secret") PNone (PStr "chkpwd")
           (PStr "secret") PNone (PStr "chkpwd") (PStr "PC")).
  - repeat split; reflexivity.
  - repeat split; reflexivity.
  - reflexivity.
Defined.

(** X5 on a detail list with the wins before the kills and the integer 5
    after them. *)
Lemma first_kills_first_match_witness :
  PlayerStatsCollector.first_kills [Scenes.wins; Scenes.kills; PInt 5]
  = Ok (PInt 12)
  /\ PlayerStatsCollector.first_kills [Scenes.wins] = Ok (PInt 0).
Proof.
  assert (Hpre : Forall other_key [Scenes.wins]).
  { constructor; [|constructor]. exists (PStr "wins"). split; reflexivity. }
  destruct (first_kills_first_match [Scenes.wins] [PInt 5] Scenes.kills Hpre)
    as (Hfirst & _ & Hnone).
  split; [exact (Hfirst eq_refl)|exact Hnone].
Defined.

(** X6 on a map document without its [next] section, given to either
    extraction. *)
Lemma missing_section_assigns_nothing_witness :
  (exists e,
      MapDataCollector.extract Scenes.no_next Examples.started
      = (Raise e, Examples.started))
  /\ (exists e,
         PlayerStatsCollector.extract Examples.steady_environment
           Scenes.no_next Examples.started
         = (Raise e, Examples.started)).
Proof.
  split.
  - apply (proj1 (missing_section_assigns_nothing Examples.steady_environment
                    Scenes.no_next Examples.started "next" eq_refl)).
    apply list_elem_of_further, list_elem_of_here.
  - apply (proj2 (missing_section_assigns_nothing Examples.steady_environment
                    Scenes.no_next Examples.started "global" eq_refl)).
    apply list_elem_of_here.
Defined.

(** X7 on a map document whose [next] section has no map. *)
Lemma map_snapshot_torn_witness :
  exists e,
    MapDataCollector.extract Scenes.no_next_map Examples.started
    = (Raise e,
       with_attrs Map
         (<["current_map_name" := PStr "Kings Canyon"]>
            (attrs Map Examples.started))
         Examples.started).
Proof.
  apply (map_snapshot_torn Scenes.no_next_map (PDict Examples.current_map)
           (PDict Scenes.next_unnamed) (PStr "Kings Canyon") Examples.started);
    reflexivity.
Defined.

(** X8 on the example documents. *)
Lemma tick_shows_snapshot_witness :
  Forall (shows_gauge Examples.steady_environment Scenes.shown) gauge_rows
  /\ Forall (shows_info Scenes.shown) info_rows
  /\ shows_str Examples.steady_environment Scenes.shown "banned" "banned" "banned"
  /\ exists d,
       attrs Player Scenes.shown !! "all_legends_kills" = Some (PDict d)
       /\ NoDup (Dict.keys d)
       /\ forall name v,
            Dict.get name d = Some v ->
            exists f,
              py_float Examples.steady_environment v = Ok f
              /\ instruments Scenes.shown !! legend_child name = Some (Gauge f).
Proof.
  exact (tick_shows_snapshot _ _ _ started_collects).
Defined.

(** X9 on the example documents, where the player is online, not in a game
    and the party is not full. *)
Lemma tick_shows_flags_witness :
  exists realtime online in_game full,
    getitem Examples.player_stats "realtime" = Ok realtime
    /\ getitem realtime "isOnline" = Ok online
    /\ getitem realtime "isInGame" = Ok in_game
    /\ getitem realtime "partyFull" = Ok full
    /\ instruments Scenes.shown !! ("is_online", [])
       = Some (Gauge (binary64_of_Z (if truthy online then 1 else 0)))
    /\ instruments Scenes.shown !! ("is_in_game", [])
       = Some (Gauge (binary64_of_Z (if truthy in_game then 1 else 0)))
    /\ instruments Scenes.shown !! ("party_full", [])
       = Some (Info [("party_full",
                      PStr (if truthy full then "True" else "False"))]).
Proof.
  exact (tick_shows_flags _ _ _ _ _ _ _ _ started_fetched started_collects).
Defined.

(** X10 on a state in which Bangalore was seen with 5 kills: the example
    document gives Bangalore 0 kills, the mapping after the call is
    [{"Wraith": 12}], and the child of Bangalore still holds 5.0. *)
Lemma absent_legend_keeps_child_witness :
  instruments
    (snd (ApexCollector.collect Examples.steady_environment Scenes.seen_bangalore))
    !! legend_child "Bangalore"
  = instruments Scenes.seen_bangalore !! legend_child "Bangalore"
  /\ instruments Scenes.seen_bangalore !! legend_child "Bangalore"
     = Some (Gauge (binary64_of_Z 5))
  /\ attrs Player
       (snd (ApexCollector.collect Examples.steady_environment
               Scenes.seen_bangalore))
       !! "all_legends_kills" = Some (PDict [("Wraith", PInt 12)]).
Proof.
  assert (Hd : attrs Player
                 (snd (ApexCollector.collect Examples.steady_environment
                         Scenes.seen_bangalore))
                 !! "all_legends_kills" = Some (PDict [("Wraith", PInt 12)]))
    by (vm_compute; reflexivity).
  split; [|split; [vm_compute; reflexivity|exact Hd]].
  apply (absent_legend_keeps_child Examples.steady_environment
           Scenes.seen_bangalore "Bangalore").
  intros d Hd'. rewrite Hd in Hd'. injection Hd' as <-.
  intros Hin. apply list_elem_of_singleton in Hin. discriminate.
Defined.

(** The start of the program with [LOG_LEVEL=verbose] and the credentials
    in place: [basicConfig] raises and the process ends with status 1. *)
Lemma start_with_unknown_level :
  Main.configure_logging (fun s => s)
    (<["LOG_LEVEL" := "verbose"]> Scenes.name_environ)
  = Raise ValueError
  /\ Main.start (fun s => s) (<["LOG_LEVEL" := "verbose"]> Scenes.name_environ)
     = inl 1
  /\ Main.start (fun s => s) (<["LOG_LEVEL" := "DEBUG"]> Scenes.name_environ)
     = inr Examples.started.
Proof. repeat split; vm_compute; reflexivity. Qed.
